(** * MediVault: biometric-gated credential cache and identity adapter

    A shallow embedding of [services/biometricService.ts] and
    [services/firebaseAuthService.ts].  Every [async] function of the
    source becomes a computation in a state-and-exception monad over an
    explicit world: the world holds what the function can change (the
    contents of the secure store, the accounts of the identity backend)
    together with a chronological log of the calls it made to the platform.

    What the platform answers is held in a separate record ([Device],
    [Firebase], [GoogleSigninApi]): each entry point either returns a value
    or throws, and what it does is fixed for the span of one service call.
    Statements about several calls in a row take a device per phase where
    the phases may see different devices.

    - A thrown value is an [Error] object: a [message], and the [code]
      that Firebase and the Google module attach.  A promise rejected with
      [null] or [undefined] is outside this type; [BiometricRejections]
      carries it through [authenticateWithBiometrics], whose [catch] block
      is the one of the biometric service that reads its error.
    - The secure store keeps what was written to it: an operation that does
      not malfunction acts on a finite map from keys to strings, and one
      that malfunctions throws and leaves the map alone.
    - [console.error] and its kin are logged, since they are the only
      trace a swallowed error leaves. *)

From stdpp Require Import base strings gmap list.

Open Scope string_scope.

(** ** JavaScript values shared by both services *)

(** A thrown [Error] object: its [message], and the [code] property that
    Firebase and the Google module attach to their errors.  A thrown value
    without a message reads as the empty message; [null] and [undefined],
    on which reading a property throws, are not of this type. *)
Record JsError := mkJsError {
  message : string;
  code : option string;
}.

(** [new Error(msg)] *)
Definition new_Error (msg : string) : JsError :=
  {| message := msg; code := None |}.

(** How a call ends: it returns or it throws. *)
Inductive outcome (A : Type) : Type :=
| Returned (a : A)
| Thrown (e : JsError).
Arguments Returned {A} a.
Arguments Thrown {A} e.

(** Truthiness of a string: only the empty string is falsy. *)
Definition truthy (s : string) : bool := bool_decide (s ≠ "").

(** [a || b] where [a] is a string that may be [undefined]. *)
Definition or_else (a : option string) (b : string) : string :=
  match a with
  | Some s => if truthy s then s else b
  | None => b
  end.

(** ** The monad of asynchronous service calls *)

Section Monad.
Context {W : Type}.

Definition M (A : Type) : Type := W → W * outcome A.

Definition ret {A} (a : A) : M A := λ w, (w, Returned a).

Definition throw {A} (e : JsError) : M A := λ w, (w, Thrown e).

Definition bind {A B} (m : M A) (k : A → M B) : M B :=
  λ w, match m w with
       | (w', Returned a) => k a w'
       | (w', Thrown e) => (w', Thrown e)
       end.

(** [try { m } catch (error) { h error }] *)
Definition try_catch {A} (m : M A) (h : JsError → M A) : M A :=
  λ w, match m w with
       | (w', Returned a) => (w', Returned a)
       | (w', Thrown e) => h e w'
       end.

(** A platform entry point whose answer is fixed beforehand. *)
Definition answer {A} (o : outcome A) : M A := λ w, (w, o).
End Monad.
Arguments M : clear implicits.

Notation "'let*' x ':=' m 'in' k" := (bind m (λ x, k))
  (at level 10, x name, m at level 100, k at level 200).

(** * The biometric service *)

Module Biometric.

(** Constants for secure storage keys *)
Definition BIOMETRIC_ENABLED_KEY : string := "medivault_biometric_enabled".
Definition STORED_EMAIL_KEY : string := "medivault_stored_email".
Definition STORED_PASSWORD_KEY : string := "medivault_stored_password".

Inductive BiometricType := fingerprint | facial | iris | none.

Global Instance BiometricType_eq_dec : EqDecision BiometricType.
Proof. solve_decision. Defined.

Record Credentials := mkCredentials {
  email : string;
  password : string;
}.

Record BiometricAuthResult := mkResult {
  success : bool;
  error : option string;
  credentials : option Credentials;
}.

(** *** The platform: expo-local-authentication and expo-secure-store *)

(** [LocalAuthentication.AuthenticationType]; the platform may report a
    value the service does not know. *)
Inductive AuthenticationType :=
| FINGERPRINT
| FACIAL_RECOGNITION
| IRIS
| OTHER_TYPE (n : Z).

(** The options object handed to [authenticateAsync]. *)
Record PromptOptions := mkPromptOptions {
  promptMessage : string;
  cancelLabel : string;
  disableDeviceFallback : bool;
  fallbackLabel : string;
}.

(** What [authenticateAsync] resolves to: [{success: true}] or
    [{success: false, error}]. *)
Inductive LocalAuthenticationResult :=
| AuthSuccess
| AuthFailure (err : string).

Inductive StoreOp :=
| OpGet (key : string)
| OpSet (key value : string)
| OpDelete (key : string).

(** The device as one service call finds it: what each query of the
    biometric sensor answers, what the prompt reports, and which
    operations of the keystore malfunction (and with what error). *)
Record Device := mkDevice {
  dev_hasHardware : outcome bool;
  dev_isEnrolled : outcome bool;
  dev_supportedTypes : outcome (list AuthenticationType);
  dev_authenticate : PromptOptions → outcome LocalAuthenticationResult;
  dev_storeFault : StoreOp → option JsError;
}.

(** Calls that leave the service, in the order they were made. *)
Inductive Event :=
| EvHasHardware
| EvIsEnrolled
| EvSupportedTypes
| EvAuthenticate (opts : PromptOptions)
| EvGetItem (key : string)
| EvSetItem (key value : string)
| EvDeleteItem (key : string)
| EvConsoleError (label : string).

Record World := mkWorld {
  store : gmap string string;
  log : list Event;
}.

Definition emit (e : Event) : M World unit :=
  λ w, ({| store := store w; log := log w ++ [e] |}, Returned tt).

Definition console_error (label : string) : M World unit :=
  emit (EvConsoleError label).

Module LocalAuthentication.
Definition hasHardwareAsync (d : Device) : M World bool :=
  let* _ := emit EvHasHardware in answer (dev_hasHardware d).

Definition isEnrolledAsync (d : Device) : M World bool :=
  let* _ := emit EvIsEnrolled in answer (dev_isEnrolled d).

Definition supportedAuthenticationTypesAsync (d : Device)
  : M World (list AuthenticationType) :=
  let* _ := emit EvSupportedTypes in answer (dev_supportedTypes d).

Definition authenticateAsync (d : Device) (opts : PromptOptions)
  : M World LocalAuthenticationResult :=
  let* _ := emit (EvAuthenticate opts) in answer (dev_authenticate d opts).
End LocalAuthentication.

Module SecureStore.
Definition getItemAsync (d : Device) (key : string)
  : M World (option string) :=
  let* _ := emit (EvGetItem key) in
  match dev_storeFault d (OpGet key) with
  | Some e => throw e
  | None => λ w, (w, Returned (store w !! key))
  end.

Definition setItemAsync (d : Device) (key value : string) : M World unit :=
  let* _ := emit (EvSetItem key value) in
  match dev_storeFault d (OpSet key value) with
  | Some e => throw e
  | None => λ w, ({| store := <[key := value]> (store w); log := log w |},
                  Returned tt)
  end.

Definition deleteItemAsync (d : Device) (key : string) : M World unit :=
  let* _ := emit (EvDeleteItem key) in
  match dev_storeFault d (OpDelete key) with
  | Some e => throw e
  | None => λ w, ({| store := delete key (store w); log := log w |},
                  Returned tt)
  end.
End SecureStore.

(** *** The service *)

(** Check if device has biometric hardware *)
Definition hasHardwareAsync (d : Device) : M World bool :=
  try_catch (LocalAuthentication.hasHardwareAsync d)
    (λ _, let* _ := console_error "Error checking biometric hardware:" in
          ret false).

(** Check if device has biometrics enrolled *)
Definition isEnrolledAsync (d : Device) : M World bool :=
  try_catch (LocalAuthentication.isEnrolledAsync d)
    (λ _, let* _ := console_error "Error checking biometric enrollment:" in
          ret false).

(** The body of the [forEach] callback: one [switch] per reported type. *)
Definition push_type (acc : list BiometricType) (type : AuthenticationType)
  : list BiometricType :=
  match type with
  | FINGERPRINT => acc ++ [fingerprint]
  | FACIAL_RECOGNITION => acc ++ [facial]
  | IRIS => acc ++ [iris]
  | OTHER_TYPE _ => acc
  end.

(** Get available biometric authentication types *)
Definition getSupportedBiometricTypes (d : Device)
  : M World (list BiometricType) :=
  try_catch
    (let* types := LocalAuthentication.supportedAuthenticationTypesAsync d in
     let biometricTypes := foldl push_type [] types in
     ret (if bool_decide (0 < length biometricTypes)
          then biometricTypes else [none]))
    (λ _, let* _ := console_error "Error getting biometric types:" in
          ret [none]).

Definition includes (types : list BiometricType) (t : BiometricType) : bool :=
  bool_decide (t ∈ types).

(** Get a user-friendly name for the biometric type *)
Definition getBiometricTypeName (d : Device) : M World string :=
  let* types := getSupportedBiometricTypes d in
  if includes types facial then ret "Face ID"
  else if includes types fingerprint then ret "Fingerprint"
  else if includes types iris then ret "Iris"
  else ret "Biometric".

(** Check if biometric authentication is available and ready to use *)
Definition isBiometricAvailable (d : Device) : M World bool :=
  let* hasHardware := hasHardwareAsync d in
  let* isEnrolled := isEnrolledAsync d in
  ret (hasHardware && isEnrolled).

(** Check if biometric login is enabled by the user *)
Definition isBiometricEnabled (d : Device) : M World bool :=
  try_catch
    (let* enabled := SecureStore.getItemAsync d BIOMETRIC_ENABLED_KEY in
     ret (bool_decide (enabled = Some "true")))
    (λ _, let* _ := console_error "Error checking if biometric is enabled:" in
          ret false).

(** Clear stored credentials *)
Definition clearStoredCredentials (d : Device) : M World unit :=
  try_catch
    (let* _ := SecureStore.deleteItemAsync d STORED_EMAIL_KEY in
     SecureStore.deleteItemAsync d STORED_PASSWORD_KEY)
    (λ _, console_error "Error clearing credentials:").

(** Enable or disable biometric login *)
Definition setBiometricEnabled (d : Device) (enabled : bool) : M World unit :=
  try_catch
    (if enabled
     then SecureStore.setItemAsync d BIOMETRIC_ENABLED_KEY "true"
     else
       let* _ := SecureStore.deleteItemAsync d BIOMETRIC_ENABLED_KEY in
       (* Also clear stored credentials when disabling *)
       clearStoredCredentials d)
    (λ _, let* _ := console_error "Error setting biometric enabled:" in
          throw (new_Error "Failed to update biometric settings")).

(** Store user credentials securely for biometric login *)
Definition storeCredentials (d : Device) (email password : string)
  : M World unit :=
  try_catch
    (let* _ := SecureStore.setItemAsync d STORED_EMAIL_KEY email in
     SecureStore.setItemAsync d STORED_PASSWORD_KEY password)
    (λ _, let* _ := console_error "Error storing credentials:" in
          throw (new_Error "Failed to store credentials securely")).

(** [email && password] on two values read from the store: both present
    and neither the empty string. *)
Definition both_truthy (email password : option string)
  : option Credentials :=
  match email, password with
  | Some e, Some p =>
      if truthy e && truthy p
      then Some {| email := e; password := p |} else None
  | _, _ => None
  end.

(** Get stored credentials (only after successful biometric auth) *)
Definition getStoredCredentials (d : Device) : M World (option Credentials) :=
  try_catch
    (let* email := SecureStore.getItemAsync d STORED_EMAIL_KEY in
     let* password := SecureStore.getItemAsync d STORED_PASSWORD_KEY in
     ret (both_truthy email password))
    (λ _, let* _ := console_error "Error getting stored credentials:" in
          ret None).

(** Check if credentials are stored for biometric login *)
Definition hasStoredCredentials (d : Device) : M World bool :=
  let* credentials := getStoredCredentials d in
  ret (bool_decide (credentials ≠ None)).

Definition failure (msg : string) : BiometricAuthResult :=
  {| success := false; error := Some msg; credentials := None |}.

(** The [switch (result.error)] of a failed prompt. *)
Definition promptErrorMessage (err : string) : string :=
  if bool_decide (err = "system_cancel")
  then "Authentication was cancelled by the system"
  else if bool_decide (err = "app_cancel")
  then "Authentication was cancelled"
  else if bool_decide (err = "authentication_failed")
  then "Authentication failed. Please try again."
  else if bool_decide (err = "not_enrolled")
  then "No biometrics enrolled on this device"
  else if bool_decide (err = "not_available")
  then "Biometric authentication is not available"
  else if bool_decide (err = "passcode_not_set")
  then "Device passcode is not set"
  else if bool_decide (err = "timeout")
  then "Authentication timed out. Please try again."
  else "Biometric authentication failed".

(** Authenticate user with biometrics *)
Definition authenticateWithBiometrics (d : Device)
    (promptMessage : option string) : M World BiometricAuthResult :=
  try_catch
    ((* Check if biometrics are available *)
     let* isAvailable := isBiometricAvailable d in
     if negb isAvailable
     then ret (failure
                 "Biometric authentication is not available on this device")
     else
     (* Check if biometric is enabled *)
     let* isEnabled := isBiometricEnabled d in
     if negb isEnabled
     then ret (failure "Biometric login is not enabled")
     else
     (* Check if we have stored credentials *)
     let* credentials := getStoredCredentials d in
     match credentials with
     | None =>
         ret (failure ("No stored credentials found. "
                       ++ "Please log in with your password first."))
     | Some creds =>
         let* biometricName := getBiometricTypeName d in
         (* Perform biometric authentication *)
         let* result :=
           LocalAuthentication.authenticateAsync d
             {| promptMessage :=
                  or_else promptMessage
                    ("Login to MediVault with " ++ biometricName);
                cancelLabel := "Cancel";
                disableDeviceFallback := false;
                fallbackLabel := "Use Password" |} in
         match result with
         | AuthSuccess =>
             ret {| success := true; error := None;
                    credentials := Some creds |}
         | AuthFailure err => ret (failure (promptErrorMessage err))
         end
     end)
    (λ error,
       let* _ := console_error "Biometric authentication error:" in
       ret (failure (or_else (Some (message error))
                       "An unexpected error occurred"))).

(** Setup biometric login after successful password authentication *)
Definition setupBiometricLogin (d : Device) (email password : string)
  : M World unit :=
  try_catch
    ((* Store credentials securely *)
     let* _ := storeCredentials d email password in
     (* Enable biometric login *)
     setBiometricEnabled d true)
    (λ _, let* _ := console_error "Error setting up biometric login:" in
          throw (new_Error "Failed to setup biometric login")).

(** Disable biometric login and clear all stored data *)
Definition disableBiometricLogin (d : Device) : M World unit :=
  try_catch
    (let* _ := setBiometricEnabled d false in
     clearStoredCredentials d)
    (λ _, let* _ := console_error "Error disabling biometric login:" in
          throw (new_Error "Failed to disable biometric login")).

(** Check if biometric login can be offered to the user *)
Definition canUseBiometricLogin (d : Device) : M World bool :=
  let* isAvailable := isBiometricAvailable d in
  let* isEnabled := isBiometricEnabled d in
  let* hasCredentials := hasStoredCredentials d in
  ret (isAvailable && isEnabled && hasCredentials).

(** *** What a run leaves behind *)

(** The same store, with [evs] appended to the log. *)
Definition logged (evs : list Event) (w : World) : World :=
  {| store := store w; log := log w ++ evs |}.

(** The value a run returned, if it did not throw. *)
Definition returns {A} (r : World * outcome A) (a : A) : Prop :=
  r.2 = Returned a.

(** What a capability query counts as: a thrown error is [false]. *)
Definition probe (o : outcome bool) : bool :=
  match o with
  | Returned b => b
  | Thrown _ => false
  end.

(** What [isBiometricAvailable] answers on device [d]. *)
Definition device_available (d : Device) : bool :=
  probe (dev_hasHardware d) && probe (dev_isEnrolled d).

(** The preference as [isBiometricEnabled] sees it on store contents [s]. *)
Definition enabled_flag (d : Device) (s : gmap string string) : bool :=
  match dev_storeFault d (OpGet BIOMETRIC_ENABLED_KEY) with
  | Some _ => false
  | None => bool_decide (s !! BIOMETRIC_ENABLED_KEY = Some "true")
  end.

(** The credential as [getStoredCredentials] sees it on store contents [s]. *)
Definition readable_credentials (d : Device) (s : gmap string string)
  : option Credentials :=
  match dev_storeFault d (OpGet STORED_EMAIL_KEY),
        dev_storeFault d (OpGet STORED_PASSWORD_KEY) with
  | None, None =>
      both_truthy (s !! STORED_EMAIL_KEY) (s !! STORED_PASSWORD_KEY)
  | _, _ => None
  end.

(** Events of the capability probe. *)
Definition is_probe_event (e : Event) : Prop :=
  match e with
  | EvHasHardware | EvIsEnrolled | EvSupportedTypes | EvConsoleError _ => True
  | _ => False
  end.

(** Events that read the cached credential out of the secure store. *)
Definition reads_credential (e : Event) : Prop :=
  e = EvGetItem STORED_EMAIL_KEY ∨ e = EvGetItem STORED_PASSWORD_KEY.

(** The biometric prompt. *)
Definition is_prompt (e : Event) : Prop :=
  match e with
  | EvAuthenticate _ => True
  | _ => False
  end.

(** Events of reading the preference. *)
Definition is_preference_read (e : Event) : Prop :=
  match e with
  | EvGetItem key => key = BIOMETRIC_ENABLED_KEY
  | EvConsoleError _ => True
  | _ => False
  end.

(** Events of reading the cached credential. *)
Definition is_credential_read (e : Event) : Prop :=
  match e with
  | EvGetItem key => key = STORED_EMAIL_KEY ∨ key = STORED_PASSWORD_KEY
  | EvConsoleError _ => True
  | _ => False
  end.

(** The options [authenticateWithBiometrics] builds for the prompt. *)
Definition prompt_options (promptMessage : option string) (name : string)
  : PromptOptions :=
  {| promptMessage := or_else promptMessage ("Login to MediVault with " ++ name);
     cancelLabel := "Cancel";
     disableDeviceFallback := false;
     fallbackLabel := "Use Password" |}.

(** What the prompt's answer becomes in the result. *)
Definition prompt_result (creds : Credentials)
    (o : outcome LocalAuthenticationResult) : BiometricAuthResult :=
  match o with
  | Returned AuthSuccess =>
      {| success := true; error := None; credentials := Some creds |}
  | Returned (AuthFailure err) => failure (promptErrorMessage err)
  | Thrown e =>
      failure (or_else (Some (message e)) "An unexpected error occurred")
  end.

(** Events of the three precondition checks. *)
Definition is_precondition_event (e : Event) : Prop :=
  is_probe_event e ∨ is_preference_read e ∨ is_credential_read e.

(** Events that reach the secure store. *)
Definition touches_store (e : Event) : Prop :=
  match e with
  | EvGetItem _ | EvSetItem _ _ | EvDeleteItem _ => True
  | _ => False
  end.

(** *** The specification's view of modalities *)

(** [Modality] of the data model: the sentinel ['none'] is not one. *)
Inductive Modality := Fingerprint | Facial | Iris.

Global Instance Modality_eq_dec : EqDecision Modality.
Proof. solve_decision. Defined.

Global Instance Modality_countable : Countable Modality.
Proof.
  refine (inj_countable'
            (λ m, match m with Fingerprint => 0 | Facial => 1 | Iris => 2 end)
            (λ n, match n with 0 => Fingerprint | 1 => Facial | _ => Iris end)
            _).
  by intros [].
Defined.

Definition modality_of (t : BiometricType) : option Modality :=
  match t with
  | fingerprint => Some Fingerprint
  | facial => Some Facial
  | iris => Some Iris
  | none => None
  end.

(** The set of modalities a list of biometric types stands for. *)
Definition supportedModalities (types : list BiometricType) : gset Modality :=
  list_to_set (omap modality_of types).

(** *** Devices and stores of the examples *)

Definition no_fault : StoreOp → option JsError := λ _, None.

(** A phone with an enrolled fingerprint whose prompt ends as [prompt]. *)
Definition phone (prompt : outcome LocalAuthenticationResult) : Device :=
  {| dev_hasHardware := Returned true;
     dev_isEnrolled := Returned true;
     dev_supportedTypes := Returned [FINGERPRINT];
     dev_authenticate := λ _, prompt;
     dev_storeFault := no_fault |}.

(** A device without biometric hardware. *)
Definition bare_device : Device :=
  {| dev_hasHardware := Returned false;
     dev_isEnrolled := Returned false;
     dev_supportedTypes := Thrown (new_Error "no biometric hardware");
     dev_authenticate := λ _, Returned (AuthFailure "not_available");
     dev_storeFault := no_fault |}.

(** A phone whose keystore refuses to delete the credential entries. *)
Definition sticky_phone : Device :=
  {| dev_hasHardware := Returned true;
     dev_isEnrolled := Returned true;
     dev_supportedTypes := Returned [FACIAL_RECOGNITION];
     dev_authenticate := λ _, Returned AuthSuccess;
     dev_storeFault := λ op,
       match op with
       | OpDelete key =>
           if bool_decide (key = BIOMETRIC_ENABLED_KEY) then None
           else Some (new_Error "keystore busy")
       | _ => None
       end |}.

Definition fresh_install : World := {| store := ∅; log := [] |}.

(** The store after the user of the specification's scenario enrolled. *)
Definition enrolled : World :=
  {| store := <[BIOMETRIC_ENABLED_KEY := "true"]>
                (<[STORED_PASSWORD_KEY := "secret1"]>
                   (<[STORED_EMAIL_KEY := "a@b.com"]> ∅));
     log := [] |}.

End Biometric.

(** * The identity provider adapter *)

Module FirebaseAuth.

(** Firebase's [User], as far as the service reads it. *)
Module User.
Record t := mk {
  uid : string;
  email : option string;
  displayName : option string;
  photoURL : option string;
  emailVerified : bool;
}.
End User.

Module AuthUser.
Record t := mk {
  uid : string;
  email : option string;
  displayName : option string;
  photoURL : option string;
  emailVerified : bool;
}.
End AuthUser.

Module SignUpData.
Record t := mk {
  email : string;
  password : string;
  displayName : option string;
}.
End SignUpData.

Module SignInData.
Record t := mk {
  email : string;
  password : string;
}.
End SignInData.

(** *** The platform: firebase/auth and the Google Sign-In module *)

(** The identity backend as one call finds it.  [fb_updateProfile u name]
    is the outcome of [updateProfile(u, {displayName: name})]. *)
Record Firebase := mkFirebase {
  fb_createUser : string → string → outcome User.t;
  fb_signIn : string → string → outcome User.t;
  fb_updateProfile : User.t → string → outcome unit;
  fb_signInWithCredential : string → outcome User.t;
}.

(** [statusCodes] of @react-native-google-signin/google-signin. *)
Record StatusCodes := mkStatusCodes {
  SIGN_IN_CANCELLED : string;
  IN_PROGRESS : string;
  PLAY_SERVICES_NOT_AVAILABLE : string;
}.

(** The [GoogleSignin] object: how each of its methods ends.  [gs_signIn]
    carries [signInResult.data?.idToken]. *)
Record GoogleSigninApi := mkGoogleSigninApi {
  gs_configure : outcome unit;
  gs_hasPlayServices : outcome unit;
  gs_signIn : outcome (option string);
}.

(** What [require('@react-native-google-signin/google-signin')] exports. *)
Record GoogleSignInModule := mkGoogleSignInModule {
  module_GoogleSignin : option GoogleSigninApi;
  module_statusCodes : option StatusCodes;
}.

Inductive Event :=
| EvConfigure
| EvCreateUser (email password : string)
| EvSignIn (email password : string)
| EvUpdateProfile (uid displayName : string)
| EvHasPlayServices
| EvGoogleSignIn
| EvSignInWithCredential (idToken : string)
| EvConsole (text : string).

(** The remote accounts by uid, and the calls made so far. *)
Record World := mkWorld {
  accounts : gmap string User.t;
  log : list Event;
}.

Definition emit (e : Event) : M World unit :=
  λ w, ({| accounts := accounts w; log := log w ++ [e] |}, Returned tt).

Definition record_account (u : User.t) : M World unit :=
  λ w, ({| accounts := <[User.uid u := u]> (accounts w); log := log w |},
        Returned tt).

Definition createUserWithEmailAndPassword (fb : Firebase)
    (email password : string) : M World User.t :=
  let* _ := emit (EvCreateUser email password) in
  let* user := answer (fb_createUser fb email password) in
  let* _ := record_account user in
  ret user.

Definition signInWithEmailAndPassword (fb : Firebase)
    (email password : string) : M World User.t :=
  let* _ := emit (EvSignIn email password) in
  answer (fb_signIn fb email password).

(** [updateProfile(user, {displayName})]: on success the user object, and
    the account behind it, carry the new display name. *)
Definition updateProfile (fb : Firebase) (user : User.t) (name : string)
  : M World User.t :=
  let* _ := emit (EvUpdateProfile (User.uid user) name) in
  let* _ := answer (fb_updateProfile fb user name) in
  let user' := {| User.uid := User.uid user;
                  User.email := User.email user;
                  User.displayName := Some name;
                  User.photoURL := User.photoURL user;
                  User.emailVerified := User.emailVerified user |} in
  let* _ := record_account user' in
  ret user'.

Definition signInWithCredential (fb : Firebase) (idToken : string)
  : M World User.t :=
  let* _ := emit (EvSignInWithCredential idToken) in
  answer (fb_signInWithCredential fb idToken).

(** *** Module state *)

(** The three module-level variables. *)
Record Globals := mkGlobals {
  GoogleSignin : option GoogleSigninApi;
  statusCodes : option StatusCodes;
  googleSignInAvailable : bool;
}.

(** Try to load Google Sign-In: [required] is [None] when [require] throws.
    The assignments made before a throw stand. *)
Definition load_module (required : option GoogleSignInModule)
  : M World Globals :=
  match required with
  | None =>
      let* _ := emit (EvConsole
                    ("Google Sign-In not available. This is expected in Expo Go. "
                     ++ "Use a development build for Google Sign-In "
                     ++ "functionality.")) in
      ret {| GoogleSignin := None; statusCodes := None;
             googleSignInAvailable := false |}
  | Some googleSignInModule =>
      let globals :=
        {| GoogleSignin := module_GoogleSignin googleSignInModule;
           statusCodes := module_statusCodes googleSignInModule;
           googleSignInAvailable := true |} in
      let* _ :=
        try_catch
          (match GoogleSignin globals with
           | None => throw (new_Error "Cannot read properties of undefined")
           | Some api =>
               let* _ := emit EvConfigure in
               let* _ := answer (gs_configure api) in
               emit (EvConsole "Google Sign-In configured successfully")
           end)
          (λ _, emit (EvConsole
                    ("Google Sign-In not available. This is expected in Expo Go. "
                     ++ "Use a development build for Google Sign-In "
                     ++ "functionality."))) in
      ret globals
  end.

(** *** The service *)

(** Convert Firebase User to AuthUser *)
Definition mapFirebaseUser (user : User.t) : AuthUser.t :=
  {| AuthUser.uid := User.uid user;
     AuthUser.email := User.email user;
     AuthUser.displayName := User.displayName user;
     AuthUser.photoURL := User.photoURL user;
     AuthUser.emailVerified := User.emailVerified user |}.

Definition errorMessages : list (string * string) :=
  [ ("auth/email-already-in-use",
     "This email is already registered. Please sign in instead.");
    ("auth/invalid-email", "Please enter a valid email address.");
    ("auth/operation-not-allowed", "Email/password sign-in is not enabled.");
    ("auth/weak-password", "Password should be at least 6 characters.");
    ("auth/user-disabled", "This account has been disabled.");
    ("auth/user-not-found", "No account found with this email.");
    ("auth/wrong-password", "Incorrect password. Please try again.");
    ("auth/too-many-requests",
     "Too many failed attempts. Please try again later.");
    ("auth/network-request-failed",
     "Network error. Please check your connection.");
    ("auth/invalid-credential",
     "Invalid credentials. Please check your email and password.");
    ("auth/account-exists-with-different-credential",
     "An account already exists with the same email address but different "
     ++ "sign-in credentials.") ].

Fixpoint lookup_message (table : list (string * string)) (key : string)
  : option string :=
  match table with
  | [] => None
  | (k, v) :: rest => if bool_decide (k = key) then Some v
                      else lookup_message rest key
  end.

(** Get user-friendly error messages for Firebase Auth errors; the code of
    an error that has none is [undefined].  The table is read by its own
    keys: a code that names a member every object inherits ([constructor],
    [toString], ...) is outside this reading. *)
Definition getAuthErrorMessage (errorCode : option string) : string :=
  or_else (errorCode ≫= lookup_message errorMessages)
    "An authentication error occurred. Please try again.".

(** Sign up a new user with email and password *)
Definition signUp (fb : Firebase) (data : SignUpData.t) : M World AuthUser.t :=
  try_catch
    (let* user :=
       createUserWithEmailAndPassword fb (SignUpData.email data)
         (SignUpData.password data) in
     (* Update display name if provided *)
     let* user :=
       match SignUpData.displayName data with
       | Some name => if truthy name then updateProfile fb user name
                      else ret user
       | None => ret user
       end in
     ret (mapFirebaseUser user))
    (λ error, throw (new_Error (getAuthErrorMessage (code error)))).

(** Sign in an existing user with email and password *)
Definition signIn (fb : Firebase) (data : SignInData.t) : M World AuthUser.t :=
  try_catch
    (let* user :=
       signInWithEmailAndPassword fb (SignInData.email data)
         (SignInData.password data) in
     ret (mapFirebaseUser user))
    (λ error, throw (new_Error (getAuthErrorMessage (code error)))).

(** Check if Google Sign-In is available (development build required) *)
Definition isGoogleSignInAvailable (g : Globals) : bool :=
  googleSignInAvailable g.

(** [statusCodes && error.code === statusCodes.X] *)
Definition has_status (g : Globals) (error : JsError)
    (X : StatusCodes → string) : bool :=
  match statusCodes g with
  | Some codes => bool_decide (code error = Some (X codes))
  | None => false
  end.

(** Sign in with Google *)
Definition signInWithGoogle (g : Globals) (fb : Firebase)
  : M World AuthUser.t :=
  (* Check if Google Sign-In is available *)
  match googleSignInAvailable g, GoogleSignin g with
  | false, _ | _, None =>
      throw (new_Error ("Google Sign-In is not available. "
                        ++ "Please use a development build instead of Expo Go."))
  | true, Some api =>
      try_catch
        ((* Check if device supports Google Play Services *)
         let* _ := emit EvHasPlayServices in
         let* _ := answer (gs_hasPlayServices api) in
         (* Get the users ID token *)
         let* _ := emit EvGoogleSignIn in
         let* idToken := answer (gs_signIn api) in
         match idToken with
         | Some token =>
             if truthy token then
               (* Sign-in the user with the credential *)
               let* user := signInWithCredential fb token in
               ret (mapFirebaseUser user)
             else throw (new_Error "No ID token returned from Google Sign-In")
         | None => throw (new_Error "No ID token returned from Google Sign-In")
         end)
        (λ error,
           if has_status g error SIGN_IN_CANCELLED
           then throw (new_Error "Google Sign-In was cancelled")
           else if has_status g error IN_PROGRESS
           then throw (new_Error "Google Sign-In is already in progress")
           else if has_status g error PLAY_SERVICES_NOT_AVAILABLE
           then throw (new_Error
                         "Google Play Services is not available on this device")
           else throw (new_Error (or_else (Some (message error))
                                    "Failed to sign in with Google")))
  end.

(** *** Backends of the examples *)

Definition alice : User.t :=
  {| User.uid := "uid-1"; User.email := Some "a@b.com";
     User.displayName := None; User.photoURL := None;
     User.emailVerified := false |}.

(** Account creation works; the profile update fails on the network. *)
Definition flaky_backend : Firebase :=
  {| fb_createUser := λ _ _, Returned alice;
     fb_signIn := λ _ _, Returned alice;
     fb_updateProfile := λ _ _,
       Thrown {| message := "Firebase: Error (auth/network-request-failed).";
                 code := Some "auth/network-request-failed" |};
     fb_signInWithCredential := λ _, Returned alice |}.

Definition alice_signs_up : SignUpData.t :=
  {| SignUpData.email := "a@b.com"; SignUpData.password := "secret1";
     SignUpData.displayName := Some "Alice" |}.

Definition no_accounts : World := {| accounts := ∅; log := [] |}.

End FirebaseAuth.

(** * The rest of the identity provider adapter: session operations *)

Module FirebaseSession.
Import FirebaseAuth.

(** *** The platform *)

(** The session methods of the [GoogleSignin] object. *)
Record GoogleSessionApi := mkGoogleSessionApi {
  gs_isSignedIn : outcome bool;
  gs_signOut : outcome unit;
}.

(** The session entry points of firebase/auth.
    [fb_updateProfile user displayName photoURL] is the outcome of
    [updateProfile(user, {displayName, photoURL})]. *)
Record FirebaseSessionApi := mkFirebaseSessionApi {
  fb_signOut : outcome unit;
  fb_sendPasswordResetEmail : string → outcome unit;
  fb_updateProfile : User.t → option string → option string → outcome unit;
}.

Inductive Event :=
| EvIsSignedIn
| EvGoogleSignOut
| EvFirebaseSignOut
| EvSendPasswordResetEmail (email : string)
| EvUpdateProfile (uid : string) (displayName photoURL : option string)
| EvConsoleWarn (text : string).

(** [auth.currentUser], and the calls made so far. *)
Record World := mkWorld {
  currentUser : option User.t;
  log : list Event;
}.

Definition emit (e : Event) : M World unit :=
  λ w, ({| currentUser := currentUser w; log := log w ++ [e] |}, Returned tt).

Definition set_currentUser (user : option User.t) : M World unit :=
  λ w, ({| currentUser := user; log := log w |}, Returned tt).

(** [signOut(auth)] of firebase/auth: on success nobody is signed in. *)
Definition firebaseSignOut (fb : FirebaseSessionApi) : M World unit :=
  let* _ := emit EvFirebaseSignOut in
  let* _ := answer (fb_signOut fb) in
  set_currentUser None.

Definition sendPasswordResetEmail (fb : FirebaseSessionApi) (email : string)
  : M World unit :=
  let* _ := emit (EvSendPasswordResetEmail email) in
  answer (fb_sendPasswordResetEmail fb email).

(** [value || null] on a field of the profile. *)
Definition or_null (value : option string) : option string :=
  match value with
  | Some s => if truthy s then Some s else None
  | None => None
  end.

(** [updateProfile(user, {displayName, photoURL})]: on success the user
    object, which is [auth.currentUser], carries the two values, an empty
    one as [null]. *)
Definition updateProfile (fb : FirebaseSessionApi) (user : User.t)
    (displayName photoURL : option string) : M World unit :=
  let* _ := emit (EvUpdateProfile (User.uid user) displayName photoURL) in
  let* _ := answer (fb_updateProfile fb user displayName photoURL) in
  set_currentUser (Some {| User.uid := User.uid user;
                           User.email := User.email user;
                           User.displayName := or_null displayName;
                           User.photoURL := or_null photoURL;
                           User.emailVerified := User.emailVerified user |}).

(** *** The service *)

(** Whether the guard [googleSignInAvailable && GoogleSignin] passes. *)
Definition google_usable (g : Globals) : bool :=
  match googleSignInAvailable g, GoogleSignin g with
  | true, Some _ => true
  | _, _ => false
  end.

(** Sign out the current user (including Google sign-out) *)
Definition signOut (g : Globals) (google : GoogleSessionApi)
    (fb : FirebaseSessionApi) : M World unit :=
  try_catch
    (let* _ :=
       (* Sign out from Google if available and signed in *)
       if google_usable g then
         try_catch
           (let* _ := emit EvIsSignedIn in
            let* isSignedIn := answer (gs_isSignedIn google) in
            if (isSignedIn : bool) then
              let* _ := emit EvGoogleSignOut in
              answer (gs_signOut google)
            else ret tt)
           (λ _, (* Ignore Google sign-out errors *)
              emit (EvConsoleWarn "Google sign-out error (non-critical):"))
       else ret tt in
     (* Sign out from Firebase *)
     firebaseSignOut fb)
    (λ error, throw (new_Error (getAuthErrorMessage (code error)))).

(** Send password reset email *)
Definition resetPassword (fb : FirebaseSessionApi) (email : string)
  : M World unit :=
  try_catch (sendPasswordResetEmail fb email)
    (λ error, throw (new_Error (getAuthErrorMessage (code error)))).

(** Get the currently authenticated user *)
Definition getCurrentUser (w : World) : option AuthUser.t :=
  match currentUser w with
  | Some user => Some (mapFirebaseUser user)
  | None => None
  end.

(** [a ?? b]: only [undefined] and [null] give way to [b]. *)
Definition nullish_or (a b : option string) : option string :=
  match a with
  | Some s => Some s
  | None => b
  end.

(** Update user profile *)
Definition updateUserProfile (fb : FirebaseSessionApi)
    (displayName photoURL : option string) : M World unit :=
  λ w,
    match currentUser w with
    | None => throw (new_Error "No authenticated user") w
    | Some user =>
        try_catch
          (updateProfile fb user
             (nullish_or displayName (User.displayName user))
             (nullish_or photoURL (User.photoURL user)))
          (λ error, throw (new_Error (getAuthErrorMessage (code error)))) w
    end.

(** Check if user is signed in with Google *)
Definition isGoogleSignedIn (g : Globals) (google : GoogleSessionApi)
  : M World bool :=
  if google_usable g then
    try_catch
      (let* _ := emit EvIsSignedIn in answer (gs_isSignedIn google))
      (λ _, ret false)
  else ret false.

(** *** Readings used by the facts *)

(** The text for an error code as the table itself gives it: the text
    listed for a code of the table, and the generic text for an error
    without a code. *)
Definition own_text (errorCode : option string) (text : string) : Prop :=
  match errorCode with
  | Some c => (c, text) ∈ errorMessages
  | None => text = "An authentication error occurred. Please try again."
  end.

Definition unavailable_error : JsError :=
  new_Error ("Google Sign-In is not available. "
             ++ "Please use a development build instead of Expo Go.").

(** A user with a profile, signed in. *)
Definition bob : User.t :=
  {| User.uid := "uid-2"; User.email := Some "bob@b.com";
     User.displayName := Some "Bob"; User.photoURL := Some "https://p/bob.png";
     User.emailVerified := true |}.

Definition signed_in : World := {| currentUser := Some bob; log := [] |}.

Definition working_session : FirebaseSessionApi :=
  {| fb_signOut := Returned tt;
     fb_sendPasswordResetEmail := λ _, Returned tt;
     fb_updateProfile := λ _ _ _, Returned tt |}.

(** A backend that rejects sign-in with a wrong password. *)
Definition strict_backend : Firebase :=
  {| fb_createUser := λ _ _,
       Thrown {| message := "Firebase: Error (auth/email-already-in-use).";
                 code := Some "auth/email-already-in-use" |};
     fb_signIn := λ _ _,
       Thrown {| message := "Firebase: Error (auth/wrong-password).";
                 code := Some "auth/wrong-password" |};
     FirebaseAuth.fb_updateProfile := λ _ _, Returned tt;
     fb_signInWithCredential := λ _, Returned alice |}.

Definition google_codes : StatusCodes :=
  {| SIGN_IN_CANCELLED := "SIGN_IN_CANCELLED";
     IN_PROGRESS := "IN_PROGRESS";
     PLAY_SERVICES_NOT_AVAILABLE := "PLAY_SERVICES_NOT_AVAILABLE" |}.

(** A Google object whose sign-in dialog ends as [dialog]. *)
Definition google_api (dialog : outcome (option string)) : GoogleSigninApi :=
  {| gs_configure := Returned tt;
     gs_hasPlayServices := Returned tt;
     gs_signIn := dialog |}.

Definition loaded (dialog : outcome (option string)) : Globals :=
  {| GoogleSignin := Some (google_api dialog);
     statusCodes := Some google_codes;
     googleSignInAvailable := true |}.

End FirebaseSession.

(** * Readings of the biometric service used by the further facts *)

Module BiometricViews.
Import Biometric.

Global Instance AuthenticationType_eq_dec : EqDecision AuthenticationType.
Proof. solve_decision. Defined.

(** The biometric type one [case] of the [switch] pushes, if any. *)
Definition biometric_type_of (type : AuthenticationType)
  : option BiometricType :=
  match type with
  | FINGERPRINT => Some fingerprint
  | FACIAL_RECOGNITION => Some facial
  | IRIS => Some iris
  | OTHER_TYPE _ => None
  end.

(** The types the platform reported; a failed query reports nothing. *)
Definition reported_types (d : Device) : list AuthenticationType :=
  match dev_supportedTypes d with
  | Returned types => types
  | Thrown _ => []
  end.

(** The label by precedence: face, then finger, then iris. *)
Definition label_of (d : Device) : string :=
  if bool_decide (FACIAL_RECOGNITION ∈ reported_types d) then "Face ID"
  else if bool_decide (FINGERPRINT ∈ reported_types d) then "Fingerprint"
  else if bool_decide (IRIS ∈ reported_types d) then "Iris"
  else "Biometric".

(** Events that change the secure store. *)
Definition is_write (e : Event) : Prop :=
  match e with
  | EvSetItem _ _ | EvDeleteItem _ => True
  | _ => False
  end.

(** A phone whose keystore takes the email but refuses the password. *)
Definition half_writing_phone : Device :=
  {| dev_hasHardware := Returned true;
     dev_isEnrolled := Returned true;
     dev_supportedTypes := Returned [FINGERPRINT];
     dev_authenticate := λ _, Returned AuthSuccess;
     dev_storeFault := λ op,
       match op with
       | OpSet key _ =>
           if bool_decide (key = STORED_PASSWORD_KEY)
           then Some (new_Error "keystore full") else None
       | _ => None
       end |}.

(** A phone whose keystore refuses every deletion. *)
Definition undeletable_phone : Device :=
  {| dev_hasHardware := Returned true;
     dev_isEnrolled := Returned true;
     dev_supportedTypes := Returned [FINGERPRINT];
     dev_authenticate := λ _, Returned AuthSuccess;
     dev_storeFault := λ op,
       match op with
       | OpDelete _ => Some (new_Error "keystore locked")
       | _ => None
       end |}.

End BiometricViews.

(** * Authentication when the prompt may reject with anything *)

Module BiometricRejections.
Import Biometric.

(** What a promise is rejected with, as far as a [catch] block that reads
    [error.message] can tell it apart: some value with a message (an
    [Error]; a value without one reads as the empty message), or [null] or
    [undefined]. *)
Inductive Rejection :=
| RejectedWith (e : JsError)
| RejectedNullish.

(** How a promise settles. *)
Inductive settled (A : Type) : Type :=
| Resolved (a : A)
| Rejected (v : Rejection).
Arguments Resolved {A} a.
Arguments Rejected {A} v.

Definition P (A : Type) : Type := World → World * settled A.

Definition resolve {A} (a : A) : P A := λ w, (w, Resolved a).

Definition reject {A} (v : Rejection) : P A := λ w, (w, Rejected v).

Definition and_then {A B} (m : P A) (k : A → P B) : P B :=
  λ w, match m w with
       | (w', Resolved a) => k a w'
       | (w', Rejected v) => (w', Rejected v)
       end.

(** [try { m } catch (error) { h error }] *)
Definition try_catch_any {A} (m : P A) (h : Rejection → P A) : P A :=
  λ w, match m w with
       | (w', Resolved a) => (w', Resolved a)
       | (w', Rejected v) => h v w'
       end.

(** A computation of the service, which throws [Error] objects only. *)
Definition lift {A} (m : M World A) : P A :=
  λ w, match m w with
       | (w', Returned a) => (w', Resolved a)
       | (w', Thrown e) => (w', Rejected (RejectedWith e))
       end.

Notation "'let!' x ':=' m 'in' k" := (and_then m (λ x, k))
  (at level 10, x name, m at level 100, k at level 200).

(** The error of reading a property of [null] or [undefined]. *)
Definition TypeError : JsError :=
  new_Error "Cannot read property 'message' of null".

(** [error.message] *)
Definition read_message (error : Rejection) : P string :=
  match error with
  | RejectedWith e => resolve (message e)
  | RejectedNullish => reject (RejectedWith TypeError)
  end.

(** A device whose prompt may settle in any way.  The queries and the
    keystore are those of [base]; what they throw is never read by the
    service, so an [Error] object stands for any thrown value there. *)
Record PromptDevice := mkPromptDevice {
  base : Device;
  prompt : PromptOptions → settled LocalAuthenticationResult;
}.

Definition authenticateAsync (d : PromptDevice) (opts : PromptOptions)
  : P LocalAuthenticationResult :=
  let! _ := lift (emit (EvAuthenticate opts)) in
  λ w, (w, prompt d opts).

(** Authenticate user with biometrics *)
Definition authenticateWithBiometrics (d : PromptDevice)
    (promptMessage : option string) : P BiometricAuthResult :=
  try_catch_any
    ((* Check if biometrics are available *)
     let! isAvailable := lift (isBiometricAvailable (base d)) in
     if negb isAvailable
     then resolve (failure
                     "Biometric authentication is not available on this device")
     else
     (* Check if biometric is enabled *)
     let! isEnabled := lift (isBiometricEnabled (base d)) in
     if negb isEnabled
     then resolve (failure "Biometric login is not enabled")
     else
     (* Check if we have stored credentials *)
     let! credentials := lift (getStoredCredentials (base d)) in
     match credentials with
     | None =>
         resolve (failure ("No stored credentials found. "
                           ++ "Please log in with your password first."))
     | Some creds =>
         let! biometricName := lift (getBiometricTypeName (base d)) in
         (* Perform biometric authentication *)
         let! result :=
           authenticateAsync d
             {| promptMessage :=
                  or_else promptMessage
                    ("Login to MediVault with " ++ biometricName);
                cancelLabel := "Cancel";
                disableDeviceFallback := false;
                fallbackLabel := "Use Password" |} in
         match result with
         | AuthSuccess =>
             resolve {| success := true; error := None;
                        credentials := Some creds |}
         | AuthFailure err => resolve (failure (promptErrorMessage err))
         end
     end)
    (λ error,
       let! _ := lift (console_error "Biometric authentication error:") in
       let! message := read_message error in
       resolve (failure (or_else (Some message)
                           "An unexpected error occurred"))).

(** The same prompt, read as the [Error]-only device reads it. *)
Definition settle {A} (o : outcome A) : settled A :=
  match o with
  | Returned a => Resolved a
  | Thrown e => Rejected (RejectedWith e)
  end.

(** An enrolled phone whose prompt is rejected with [null]. *)
Definition null_rejecting_phone : PromptDevice :=
  {| base := phone (Returned AuthSuccess);
     prompt := λ _, Rejected RejectedNullish |}.

(** An enrolled phone whose prompt is rejected with an [Error]. *)
Definition error_rejecting_phone : PromptDevice :=
  {| base := phone (Returned AuthSuccess);
     prompt := λ _, Rejected (RejectedWith
                                (new_Error "NSFaceIDUsageDescription missing")) |}.

End BiometricRejections.

(** * Facts about the biometric service *)

Module BiometricFacts.
Import Biometric.

(** Closes [Forall P evs] on an explicit list of events. *)
Ltac each_event :=
  repeat first [apply List.Forall_nil | apply List.Forall_cons];
  simpl; auto.

Lemma logged_logged evs1 evs2 w :
  logged evs2 (logged evs1 w) = logged (evs1 ++ evs2) w.
Proof. unfold logged; simpl. by rewrite app_assoc. Qed.

Lemma hasHardwareAsync_run d w :
  ∃ evs, hasHardwareAsync d w = (logged evs w, Returned (probe (dev_hasHardware d)))
         ∧ Forall is_probe_event evs.
Proof.
  unfold hasHardwareAsync, LocalAuthentication.hasHardwareAsync, try_catch,
    bind, answer, console_error, emit, ret; simpl.
  destruct (dev_hasHardware d) as [b|e]; simpl.
  - exists [EvHasHardware]. split; [done|]. each_event.
  - exists [EvHasHardware; EvConsoleError "Error checking biometric hardware:"].
    split; [|each_event].
    unfold logged; simpl. by rewrite <- app_assoc.
Qed.

Lemma isEnrolledAsync_run d w :
  ∃ evs, isEnrolledAsync d w = (logged evs w, Returned (probe (dev_isEnrolled d)))
         ∧ Forall is_probe_event evs.
Proof.
  unfold isEnrolledAsync, LocalAuthentication.isEnrolledAsync, try_catch,
    bind, answer, console_error, emit, ret; simpl.
  destruct (dev_isEnrolled d) as [b|e]; simpl.
  - exists [EvIsEnrolled]. split; [done|]. each_event.
  - exists [EvIsEnrolled; EvConsoleError "Error checking biometric enrollment:"].
    split; [|each_event].
    unfold logged; simpl. by rewrite <- app_assoc.
Qed.

(** Running [m] first, when it is known to return [a] and only to log. *)
Lemma bind_logged {A B} (m : M World A) (k : A → M World B) w evs a :
  m w = (logged evs w, Returned a) → bind m k w = k a (logged evs w).
Proof. intros H. unfold bind. by rewrite H. Qed.

Lemma isBiometricAvailable_run d w :
  ∃ evs, isBiometricAvailable d w = (logged evs w, Returned (device_available d))
         ∧ Forall is_probe_event evs.
Proof.
  destruct (hasHardwareAsync_run d w) as (evs1 & H1 & P1).
  destruct (isEnrolledAsync_run d (logged evs1 w)) as (evs2 & H2 & P2).
  exists ((evs1 ++ evs2)%list). split; [|by apply Forall_app].
  unfold isBiometricAvailable.
  rewrite (bind_logged _ _ _ _ _ H1), (bind_logged _ _ _ _ _ H2).
  unfold ret. by rewrite logged_logged.
Qed.

Lemma isBiometricEnabled_run d w :
  ∃ evs, isBiometricEnabled d w
         = (logged evs w, Returned (enabled_flag d (store w)))
         ∧ Forall is_preference_read evs.
Proof.
  unfold isBiometricEnabled, SecureStore.getItemAsync, enabled_flag, try_catch,
    bind, console_error, emit, ret, throw; simpl.
  destruct (dev_storeFault d (OpGet BIOMETRIC_ENABLED_KEY)) as [e|]; simpl.
  - exists [EvGetItem BIOMETRIC_ENABLED_KEY;
            EvConsoleError "Error checking if biometric is enabled:"].
    split; [|each_event].
    unfold logged; simpl. by rewrite <- app_assoc.
  - exists [EvGetItem BIOMETRIC_ENABLED_KEY]. split; [done|].
    each_event.
Qed.

Lemma getStoredCredentials_run d w :
  ∃ evs, getStoredCredentials d w
         = (logged evs w, Returned (readable_credentials d (store w)))
         ∧ Forall is_credential_read evs.
Proof.
  unfold getStoredCredentials, SecureStore.getItemAsync, readable_credentials,
    try_catch, bind, console_error, emit, ret, throw; simpl.
  destruct (dev_storeFault d (OpGet STORED_EMAIL_KEY)) as [e|]; simpl.
  - exists [EvGetItem STORED_EMAIL_KEY;
            EvConsoleError "Error getting stored credentials:"].
    split; [|each_event].
    unfold logged; simpl. by rewrite <- app_assoc.
  - destruct (dev_storeFault d (OpGet STORED_PASSWORD_KEY)) as [e|]; simpl.
    + exists [EvGetItem STORED_EMAIL_KEY; EvGetItem STORED_PASSWORD_KEY;
              EvConsoleError "Error getting stored credentials:"].
      split; [|each_event].
      unfold logged; simpl. by rewrite <- !app_assoc.
    + exists [EvGetItem STORED_EMAIL_KEY; EvGetItem STORED_PASSWORD_KEY].
      split; [|each_event].
      unfold logged; simpl. by rewrite <- !app_assoc.
Qed.

(** Where the pair is readable, both entries are read and nothing else
    happens. *)
Lemma getStoredCredentials_reads d w creds :
  readable_credentials d (store w) = Some creds →
  getStoredCredentials d w
  = (logged [EvGetItem STORED_EMAIL_KEY; EvGetItem STORED_PASSWORD_KEY] w,
     Returned (Some creds)).
Proof.
  unfold getStoredCredentials, SecureStore.getItemAsync, readable_credentials,
    try_catch, bind, console_error, emit, ret, throw; simpl.
  destruct (dev_storeFault d (OpGet STORED_EMAIL_KEY)); simpl; [done|].
  destruct (dev_storeFault d (OpGet STORED_PASSWORD_KEY)); simpl; [done|].
  intros ->. unfold logged; simpl. by rewrite <- !app_assoc.
Qed.

Lemma hasStoredCredentials_run d w :
  ∃ evs, hasStoredCredentials d w
         = (logged evs w,
            Returned (bool_decide (readable_credentials d (store w) ≠ None)))
         ∧ Forall is_credential_read evs.
Proof.
  destruct (getStoredCredentials_run d w) as (evs & H & P).
  exists evs. split; [|done].
  unfold hasStoredCredentials. by rewrite (bind_logged _ _ _ _ _ H).
Qed.

Lemma getSupportedBiometricTypes_run d w :
  ∃ evs types, getSupportedBiometricTypes d w = (logged evs w, Returned types)
               ∧ Forall is_probe_event evs.
Proof.
  unfold getSupportedBiometricTypes,
    LocalAuthentication.supportedAuthenticationTypesAsync, try_catch, bind,
    answer, console_error, emit, ret; simpl.
  destruct (dev_supportedTypes d) as [types|e]; simpl.
  - exists [EvSupportedTypes]. eexists. split; [done|]. each_event.
  - exists [EvSupportedTypes; EvConsoleError "Error getting biometric types:"].
    eexists. split; [|each_event].
    unfold logged; simpl. by rewrite <- app_assoc.
Qed.

Lemma getBiometricTypeName_run d w :
  ∃ evs name, getBiometricTypeName d w = (logged evs w, Returned name)
              ∧ Forall is_probe_event evs.
Proof.
  destruct (getSupportedBiometricTypes_run d w) as (evs & types & H & P).
  exists evs. unfold getBiometricTypeName.
  rewrite (bind_logged _ _ _ _ _ H). unfold ret.
  repeat case_match; eauto.
Qed.

(** The four ways through [authenticateWithBiometrics], by what the device
    and the store hold.  It never throws and never writes to the store. *)
Lemma authenticateWithBiometrics_run d pm w :
  ∃ evs r,
    authenticateWithBiometrics d pm w = (logged evs w, Returned r) ∧
    if negb (device_available d) then
      r = failure "Biometric authentication is not available on this device"
      ∧ Forall is_probe_event evs
    else if negb (enabled_flag d (store w)) then
      r = failure "Biometric login is not enabled"
      ∧ Forall (λ e, is_probe_event e ∨ is_preference_read e) evs
    else match readable_credentials d (store w) with
         | None =>
             r = failure ("No stored credentials found. "
                          ++ "Please log in with your password first.")
             ∧ Forall is_precondition_event evs
         | Some creds =>
             ∃ name pre mid post,
               r = prompt_result creds
                     (dev_authenticate d (prompt_options pm name))
               ∧ evs = (pre ++ [EvGetItem STORED_EMAIL_KEY;
                                EvGetItem STORED_PASSWORD_KEY]
                        ++ mid
                        ++ EvAuthenticate (prompt_options pm name) :: post)%list
               ∧ Forall (λ e, is_probe_event e ∨ is_preference_read e) pre
               ∧ Forall is_probe_event mid
               ∧ Forall is_probe_event post
         end.
Proof.
  unfold authenticateWithBiometrics, try_catch.
  destruct (isBiometricAvailable_run d w) as (e1 & H1 & P1).
  rewrite (bind_logged _ _ _ _ _ H1).
  destruct (device_available d); simpl; [|by eauto].
  destruct (isBiometricEnabled_run d (logged e1 w)) as (e2 & H2 & P2).
  rewrite (bind_logged _ _ _ _ _ H2), logged_logged. simpl.
  assert (Forall (λ e, is_probe_event e ∨ is_preference_read e) (e1 ++ e2))
    as P12.
  { apply Forall_app. split; eapply Forall_impl; eauto; simpl; auto. }
  destruct (enabled_flag d (store w)); simpl.
  2: { unfold ret. by do 2 eexists. }
  destruct (getStoredCredentials_run d (logged (e1 ++ e2) w)) as (e3 & H3 & P3).
  rewrite (bind_logged _ _ _ _ _ H3), logged_logged. simpl.
  destruct (readable_credentials d (store w)) as [creds|] eqn:Hcreds; simpl.
  2: { unfold ret. do 2 eexists. split; [done|]. split; [done|].
       unfold is_precondition_event. rewrite Forall_app.
       split; eapply Forall_impl; eauto; simpl; tauto. }
  pose proof (getStoredCredentials_reads d (logged (e1 ++ e2) w) creds Hcreds)
    as H3'.
  rewrite H3 in H3'. injection H3' as H3'.
  apply app_inv_head in H3'.
  subst e3. clear P3.
  set (reads := [EvGetItem STORED_EMAIL_KEY; EvGetItem STORED_PASSWORD_KEY]).
  destruct (getBiometricTypeName_run d (logged ((e1 ++ e2) ++ reads) w))
    as (e4 & name & H4 & P4).
  rewrite (bind_logged _ _ _ _ _ H4), logged_logged.
  unfold bind, LocalAuthentication.authenticateAsync, bind, emit, answer; simpl.
  fold (prompt_options pm name).
  set (opts := prompt_options pm name).
  destruct (dev_authenticate d opts) as [[|err]|e] eqn:Hp; simpl.
  - exists ((e1 ++ e2) ++ reads ++ e4 ++ [EvAuthenticate opts])%list. eexists.
    split; [unfold logged; simpl; by rewrite <- !app_assoc|].
    exists name, (e1 ++ e2)%list, e4, []. subst opts. rewrite Hp.
    by repeat split.
  - exists ((e1 ++ e2) ++ reads ++ e4 ++ [EvAuthenticate opts])%list. eexists.
    split; [unfold logged; simpl; by rewrite <- !app_assoc|].
    exists name, (e1 ++ e2)%list, e4, []. subst opts. rewrite Hp.
    by repeat split.
  - exists ((e1 ++ e2) ++ reads ++ e4
            ++ [EvAuthenticate opts;
                EvConsoleError "Biometric authentication error:"])%list.
    eexists. unfold console_error, emit, ret, logged; simpl.
    split; [by rewrite <- !app_assoc|].
    exists name, (e1 ++ e2)%list, e4,
      [EvConsoleError "Biometric authentication error:"].
    subst opts. rewrite Hp. repeat split; [done|done|each_event].
Qed.

Lemma returns_eq {A} (r : World * outcome A) w' a b :
  r = (w', Returned a) → returns r b → a = b.
Proof. intros ->. unfold returns; simpl. congruence. Qed.

Lemma probe_event_harmless e :
  is_probe_event e → ¬ is_prompt e ∧ ¬ touches_store e.
Proof. destruct e; simpl; tauto. Qed.

Lemma promptErrorMessage_nonempty err : promptErrorMessage err ≠ "".
Proof. unfold promptErrorMessage. repeat case_bool_decide; done. Qed.

Lemma or_else_nonempty a b : b ≠ "" → or_else a b ≠ "".
Proof.
  intros Hb. unfold or_else, truthy. destruct a as [s|]; [|done].
  by case_bool_decide.
Qed.

(** ** The scenarios of the specification *)

(** Cold start, no enrolment: hardware present, nothing enrolled. *)
Example cold_start_not_offered :
  returns (canUseBiometricLogin
             {| dev_hasHardware := Returned true;
                dev_isEnrolled := Returned false;
                dev_supportedTypes := Returned [FINGERPRINT];
                dev_authenticate := λ _, Returned AuthSuccess;
                dev_storeFault := no_fault |} fresh_install) false.
Proof. reflexivity. Qed.

(** Enrolled after the first login: the cached pair comes back. *)
Example enrolled_login :
  returns (authenticateWithBiometrics (phone (Returned AuthSuccess)) None
             enrolled)
    {| success := true; error := None;
       credentials := Some {| email := "a@b.com"; password := "secret1" |} |}.
Proof. reflexivity. Qed.

(** The label prefers the face over the finger over the iris. *)
Example label_precedence :
  returns (getBiometricTypeName
             {| dev_hasHardware := Returned true;
                dev_isEnrolled := Returned true;
                dev_supportedTypes :=
                  Returned [IRIS; OTHER_TYPE 7; FINGERPRINT; FACIAL_RECOGNITION];
                dev_authenticate := λ _, Returned AuthSuccess;
                dev_storeFault := no_fault |} fresh_install) "Face ID".
Proof. reflexivity. Qed.

(** ** Availability gates authentication *)

(** C3. For every device, store and prompt message: when
    [isBiometricAvailable] answers [false], [authenticateWithBiometrics]
    returns the failure "Biometric authentication is not available on this
    device"; the store is left as it was, and none of the calls it made
    is the biometric prompt or touches the secure store. *)
Theorem authenticate_unavailable d pm w :
  returns (isBiometricAvailable d w) false →
  ∃ w' evs,
    authenticateWithBiometrics d pm w
    = (w', Returned (failure
              "Biometric authentication is not available on this device"))
    ∧ store w' = store w
    ∧ log w' = (log w ++ evs)%list
    ∧ Forall (λ e, ¬ is_prompt e ∧ ¬ touches_store e) evs.
Proof.
  intros Hav.
  destruct (isBiometricAvailable_run d w) as (e1 & H1 & _).
  pose proof (returns_eq _ _ _ _ H1 Hav) as Hd.
  destruct (authenticateWithBiometrics_run d pm w) as (evs & r & Hrun & Hcase).
  rewrite Hd in Hcase. simpl in Hcase. destruct Hcase as [-> Pevs].
  exists (logged evs w), evs. repeat split; [done|].
  eapply Forall_impl; [exact Pevs|]. apply probe_event_harmless.
Qed.

Lemma authenticate_unavailable_witness :
  returns (isBiometricAvailable bare_device enrolled) false
  ∧ ∃ w' evs,
      authenticateWithBiometrics bare_device None enrolled
      = (w', Returned (failure
                "Biometric authentication is not available on this device"))
      ∧ store w' = store enrolled
      ∧ log w' = (log enrolled ++ evs)%list
      ∧ Forall (λ e, ¬ is_prompt e ∧ ¬ touches_store e) evs.
Proof.
  split; [reflexivity|].
  apply (authenticate_unavailable bare_device None enrolled). reflexivity.
Defined.

(** C4. For every device and store, [canUseBiometricLogin] returns the
    conjunction of what [isBiometricAvailable], [isBiometricEnabled] and
    [hasStoredCredentials] return there; when [isBiometricAvailable] is
    [false] it returns [false] whatever the store holds. *)
Theorem canUseBiometricLogin_conjunction d w :
  ∃ isAvailable isEnabled hasCredentials,
    returns (isBiometricAvailable d w) isAvailable
    ∧ returns (isBiometricEnabled d w) isEnabled
    ∧ returns (hasStoredCredentials d w) hasCredentials
    ∧ returns (canUseBiometricLogin d w)
        (isAvailable && isEnabled && hasCredentials)
    ∧ (isAvailable = false →
       ∀ w', returns (canUseBiometricLogin d w') false).
Proof.
  assert (∀ w0, returns (canUseBiometricLogin d w0)
                  (device_available d && enabled_flag d (store w0)
                   && bool_decide (readable_credentials d (store w0) ≠ None)))
    as Hcan.
  { intros w0.
    destruct (isBiometricAvailable_run d w0) as (e1 & H1 & _).
    destruct (isBiometricEnabled_run d (logged e1 w0)) as (e2 & H2 & _).
    destruct (hasStoredCredentials_run d (logged e2 (logged e1 w0)))
      as (e3 & H3 & _).
    unfold canUseBiometricLogin, returns.
    by rewrite (bind_logged _ _ _ _ _ H1), (bind_logged _ _ _ _ _ H2),
      (bind_logged _ _ _ _ _ H3). }
  destruct (isBiometricAvailable_run d w) as (e1 & H1 & _).
  destruct (isBiometricEnabled_run d w) as (e2 & H2 & _).
  destruct (hasStoredCredentials_run d w) as (e3 & H3 & _).
  exists (device_available d), (enabled_flag d (store w)),
    (bool_decide (readable_credentials d (store w) ≠ None)).
  unfold returns at 1 2 3. rewrite H1, H2, H3.
  repeat split; [apply Hcan|].
  intros Hd w'. specialize (Hcan w'). by rewrite Hd in Hcan.
Qed.

(** ** The result is always a value *)

(** Where whatever is thrown is an [Error] object: for every device,
    prompt message and store, [authenticateWithBiometrics] returns a result
    and does not throw; a result with [success = true] carries credentials
    and one with [success = false] carries a non-empty error message. *)
Theorem authenticate_total d pm w :
  ∃ w' r,
    authenticateWithBiometrics d pm w = (w', Returned r)
    ∧ (success r = true → is_Some (credentials r))
    ∧ (success r = false → ∃ msg, error r = Some msg ∧ msg ≠ "").
Proof.
  destruct (authenticateWithBiometrics_run d pm w) as (evs & r & Hrun & Hcase).
  exists (logged evs w), r. split; [done|].
  destruct (negb (device_available d)).
  { destruct Hcase as [-> _]. split; [done|]. intros _. by eexists. }
  destruct (negb (enabled_flag d (store w))).
  { destruct Hcase as [-> _]. split; [done|]. intros _. by eexists. }
  destruct (readable_credentials d (store w)) as [creds|].
  2: { destruct Hcase as [-> _]. split; [done|]. intros _. by eexists. }
  destruct Hcase as (name & pre & mid & post & -> & _).
  destruct (dev_authenticate d (prompt_options pm name)) as [[|err]|e]; simpl.
  - split; [by eexists|done].
  - split; [done|]. intros _. eexists. split; [done|].
    apply promptErrorMessage_nonempty.
  - split; [done|]. intros _. eexists. split; [done|].
    by apply (or_else_nonempty (Some (message e))).
Qed.

(** ** Supported types on a failed query *)

(** C9. When the platform's query for the supported authentication types
    throws, [getSupportedBiometricTypes] returns the list [['none']], which
    stands for the empty set of modalities. *)
Theorem supported_types_on_failure d w err :
  dev_supportedTypes d = Thrown err →
  ∃ w' types,
    getSupportedBiometricTypes d w = (w', Returned types)
    ∧ types = [none]
    ∧ supportedModalities types = ∅.
Proof.
  intros Hq.
  unfold getSupportedBiometricTypes,
    LocalAuthentication.supportedAuthenticationTypesAsync, try_catch, bind,
    answer, console_error, emit, ret; simpl.
  rewrite Hq. by do 2 eexists.
Qed.

Lemma supported_types_on_failure_witness :
  dev_supportedTypes bare_device = Thrown (new_Error "no biometric hardware")
  ∧ ∃ w' types,
      getSupportedBiometricTypes bare_device fresh_install
      = (w', Returned types)
      ∧ types = [none]
      ∧ supportedModalities types = ∅.
Proof.
  split; [reflexivity|].
  apply (supported_types_on_failure bare_device fresh_install
           (new_Error "no biometric hardware")).
  reflexivity.
Defined.

(** ** Enrolment and disabling *)

Lemma keys_distinct :
  BIOMETRIC_ENABLED_KEY ≠ STORED_EMAIL_KEY
  ∧ BIOMETRIC_ENABLED_KEY ≠ STORED_PASSWORD_KEY
  ∧ STORED_EMAIL_KEY ≠ STORED_PASSWORD_KEY.
Proof. by repeat split. Qed.

(** A completed enrolment wrote the pair and then the preference. *)
Lemma setupBiometricLogin_store d e p w w1 :
  setupBiometricLogin d e p w = (w1, Returned tt) →
  store w1 = <[BIOMETRIC_ENABLED_KEY := "true"]>
               (<[STORED_PASSWORD_KEY := p]>
                  (<[STORED_EMAIL_KEY := e]> (store w))).
Proof.
  unfold setupBiometricLogin, storeCredentials, setBiometricEnabled,
    SecureStore.setItemAsync, try_catch, bind, console_error, emit, ret, throw;
    simpl.
  destruct (dev_storeFault d (OpSet STORED_EMAIL_KEY e)); simpl; [done|].
  destruct (dev_storeFault d (OpSet STORED_PASSWORD_KEY p)); simpl; [done|].
  destruct (dev_storeFault d (OpSet BIOMETRIC_ENABLED_KEY "true")); simpl;
    [done|].
  by intros [= <-].
Qed.

(** A completed [disableBiometricLogin] deleted the preference. *)
Lemma disableBiometricLogin_preference d w w1 :
  disableBiometricLogin d w = (w1, Returned tt) →
  store w1 !! BIOMETRIC_ENABLED_KEY = None.
Proof.
  destruct keys_distinct as (Hee & Hep & _).
  unfold disableBiometricLogin, setBiometricEnabled, clearStoredCredentials,
    SecureStore.deleteItemAsync, try_catch, bind, console_error, emit, ret,
    throw; simpl.
  destruct (dev_storeFault d (OpDelete BIOMETRIC_ENABLED_KEY)); simpl; [done|].
  destruct (dev_storeFault d (OpDelete STORED_EMAIL_KEY)); simpl.
  { intros [= <-]; simpl. apply lookup_delete_eq. }
  destruct (dev_storeFault d (OpDelete STORED_PASSWORD_KEY)); simpl;
    intros [= <-]; simpl;
    rewrite ?lookup_delete_ne by done; apply lookup_delete_eq.
Qed.

Lemma canUseBiometricLogin_run d w :
  ∃ evs,
    canUseBiometricLogin d w
    = (logged evs w,
       Returned (device_available d && enabled_flag d (store w)
                 && bool_decide (readable_credentials d (store w) ≠ None))).
Proof.
  destruct (isBiometricAvailable_run d w) as (e1 & H1 & _).
  destruct (isBiometricEnabled_run d (logged e1 w)) as (e2 & H2 & _).
  destruct (hasStoredCredentials_run d (logged e2 (logged e1 w)))
    as (e3 & H3 & _).
  exists ((e1 ++ e2) ++ e3)%list. unfold canUseBiometricLogin.
  rewrite (bind_logged _ _ _ _ _ H1), (bind_logged _ _ _ _ _ H2),
    (bind_logged _ _ _ _ _ H3).
  by rewrite !logged_logged.
Qed.

Lemma available_iff d w b :
  returns (isBiometricAvailable d w) b ↔ device_available d = b.
Proof.
  destruct (isBiometricAvailable_run d w) as (e1 & H1 & _).
  unfold returns. rewrite H1. simpl. split; congruence.
Qed.

Lemma preference_event_harmless e :
  is_probe_event e ∨ is_preference_read e →
  ¬ reads_credential e ∧ ¬ is_prompt e.
Proof.
  destruct keys_distinct as (Hee & Hep & _).
  unfold reads_credential.
  destruct e; simpl; intros [H|H]; try done; split; try tauto;
    intros [[=]|[=]]; congruence.
Qed.

(** C1, as the code has it. For non-empty [e] and [p]: once
    [setupBiometricLogin e p] has completed, on a device where
    [isBiometricAvailable] answers [true], whose keystore reads do not
    fail and whose prompt reports success, [canUseBiometricLogin] returns
    [true] and the [authenticateWithBiometrics] that follows returns a
    successful result with exactly the credentials [{email: e, password: p}]. *)
Theorem enroll_then_authenticate d d' e p pm w w1 :
  e ≠ "" → p ≠ "" →
  setupBiometricLogin d e p w = (w1, Returned tt) →
  returns (isBiometricAvailable d' w1) true →
  (∀ key, dev_storeFault d' (OpGet key) = None) →
  (∀ opts, dev_authenticate d' opts = Returned AuthSuccess) →
  ∃ w2 w3,
    canUseBiometricLogin d' w1 = (w2, Returned true)
    ∧ authenticateWithBiometrics d' pm w2
      = (w3, Returned {| success := true; error := None;
                         credentials := Some {| email := e; password := p |} |}).
Proof.
  intros He Hp Hsetup Hav Hget Hprompt.
  destruct keys_distinct as (Hee & Hep & Hemp).
  apply setupBiometricLogin_store in Hsetup.
  apply available_iff in Hav.
  assert (enabled_flag d' (store w1) = true) as Hen.
  { unfold enabled_flag. rewrite Hget, Hsetup, lookup_insert_eq.
    by apply bool_decide_eq_true. }
  assert (readable_credentials d' (store w1)
          = Some {| email := e; password := p |}) as Hcreds.
  { unfold readable_credentials. rewrite !Hget, Hsetup.
    repeat first [rewrite lookup_insert_eq | rewrite lookup_insert_ne by done].
    unfold both_truthy, truthy. by rewrite !bool_decide_eq_true_2. }
  destruct (canUseBiometricLogin_run d' w1) as (e1 & Hcan).
  rewrite Hav, Hen, Hcreds in Hcan. simpl in Hcan.
  destruct (authenticateWithBiometrics_run d' pm (logged e1 w1))
    as (e2 & r & Hrun & Hcase).
  simpl in Hcase. rewrite Hav, Hen, Hcreds in Hcase. simpl in Hcase.
  destruct Hcase as (name & pre & mid & post & -> & _).
  rewrite Hprompt in Hrun. simpl in Hrun.
  by exists (logged e1 w1), (logged e2 (logged e1 w1)).
Qed.

Lemma enroll_then_authenticate_witness :
  "a@b.com" ≠ "" ∧ "secret1" ≠ ""
  ∧ ∃ w1 w2 w3,
      setupBiometricLogin (phone (Returned AuthSuccess)) "a@b.com" "secret1"
        fresh_install = (w1, Returned tt)
      ∧ canUseBiometricLogin (phone (Returned AuthSuccess)) w1
        = (w2, Returned true)
      ∧ authenticateWithBiometrics (phone (Returned AuthSuccess)) None w2
        = (w3, Returned {| success := true; error := None;
                           credentials := Some {| email := "a@b.com";
                                                  password := "secret1" |} |}).
Proof.
  split; [done|]. split; [done|].
  eexists.
  destruct (enroll_then_authenticate (phone (Returned AuthSuccess))
              (phone (Returned AuthSuccess)) "a@b.com" "secret1" None
              fresh_install _ ltac:(done) ltac:(done) eq_refl eq_refl
              (λ _, eq_refl) (λ _, eq_refl)) as (w2 & w3 & Hcan & Hauth).
  exists w2, w3. split; [reflexivity|]. by split.
Defined.

(** C1 as stated fails on the empty string: [setupBiometricLogin] stores an
    empty email without complaint, and [getStoredCredentials] then reads
    the pair as absent. *)
Lemma enroll_empty_email_not_offered :
  ¬ (∀ d e p w w1,
       returns (isBiometricAvailable d w) true →
       setupBiometricLogin d e p w = (w1, Returned tt) →
       returns (canUseBiometricLogin d w1) true).
Proof.
  intros Hclaim.
  specialize (Hclaim (phone (Returned AuthSuccess)) "" "secret1" fresh_install
                _ eq_refl eq_refl).
  vm_compute in Hclaim. discriminate Hclaim.
Qed.

(** C2, as the code has it. Once [disableBiometricLogin] has completed,
    [canUseBiometricLogin] returns [false]; and on a device where
    [isBiometricAvailable] answers [true] the next
    [authenticateWithBiometrics] returns the failure "Biometric login is not
    enabled" without reading the stored email or password and without
    prompting, whatever credential entries are left in the store. *)
Theorem disable_then_authenticate d d' pm w w1 :
  disableBiometricLogin d w = (w1, Returned tt) →
  ∀ w2, store w2 = store w1 →
    returns (canUseBiometricLogin d' w2) false
    ∧ (returns (isBiometricAvailable d' w2) true →
       ∃ w3 evs,
         authenticateWithBiometrics d' pm w2
         = (w3, Returned (failure "Biometric login is not enabled"))
         ∧ log w3 = (log w2 ++ evs)%list
         ∧ Forall (λ e, ¬ reads_credential e ∧ ¬ is_prompt e) evs).
Proof.
  intros Hdis w2 Hstore.
  apply disableBiometricLogin_preference in Hdis.
  assert (enabled_flag d' (store w2) = false) as Hen.
  { unfold enabled_flag. rewrite Hstore, Hdis. by case_match. }
  split.
  - destruct (canUseBiometricLogin_run d' w2) as (e1 & Hcan).
    unfold returns. rewrite Hcan, Hen. simpl. by rewrite andb_false_r.
  - intros Hav. apply available_iff in Hav.
    destruct (authenticateWithBiometrics_run d' pm w2)
      as (evs & r & Hrun & Hcase).
    rewrite Hav, Hen in Hcase. simpl in Hcase. destruct Hcase as [-> Pevs].
    exists (logged evs w2), evs. repeat split; [done|].
    eapply Forall_impl; [exact Pevs|]. apply preference_event_harmless.
Qed.

(** The keystore refuses to delete the credential entries: they stay in the
    store, and are not released. *)
Lemma disable_then_authenticate_witness :
  ∃ w1,
    disableBiometricLogin sticky_phone enrolled = (w1, Returned tt)
    ∧ store w1 !! STORED_EMAIL_KEY = Some "a@b.com"
    ∧ store w1 !! STORED_PASSWORD_KEY = Some "secret1"
    ∧ returns (canUseBiometricLogin sticky_phone w1) false
    ∧ (returns (isBiometricAvailable sticky_phone w1) true →
       ∃ w3 evs,
         authenticateWithBiometrics sticky_phone None w1
         = (w3, Returned (failure "Biometric login is not enabled"))
         ∧ log w3 = (log w1 ++ evs)%list
         ∧ Forall (λ e, ¬ reads_credential e ∧ ¬ is_prompt e) evs).
Proof.
  eexists. split; [reflexivity|]. split; [reflexivity|]. split; [reflexivity|].
  exact (disable_then_authenticate sticky_phone sticky_phone None enrolled _
           eq_refl _ eq_refl).
Defined.

(** C2 as stated fails where the device has no biometrics: the availability
    check comes first, and the error is the one of an unavailable device. *)
Lemma disable_then_authenticate_unavailable :
  ¬ (∀ d pm w w1,
       disableBiometricLogin d w = (w1, Returned tt) →
       returns (authenticateWithBiometrics d pm w1)
         (failure "Biometric login is not enabled")).
Proof.
  intros Hclaim.
  specialize (Hclaim bare_device None enrolled _ eq_refl).
  vm_compute in Hclaim. discriminate Hclaim.
Qed.

(** C8. On a keystore whose deletions do not fail, for every store:
    [disableBiometricLogin] completes, a second call right after it
    completes as well and leaves the store as the first call left it,
    with the preference and both credential entries absent. *)
Theorem disable_idempotent d w :
  (∀ key, dev_storeFault d (OpDelete key) = None) →
  ∃ w1 w2,
    disableBiometricLogin d w = (w1, Returned tt)
    ∧ disableBiometricLogin d w1 = (w2, Returned tt)
    ∧ store w2 = store w1
    ∧ store w1 !! BIOMETRIC_ENABLED_KEY = None
    ∧ store w1 !! STORED_EMAIL_KEY = None
    ∧ store w1 !! STORED_PASSWORD_KEY = None.
Proof.
  intros Hdel.
  assert (∀ w0, ∃ evs,
            disableBiometricLogin d w0
            = ({| store := delete STORED_PASSWORD_KEY
                             (delete STORED_EMAIL_KEY
                                (delete STORED_PASSWORD_KEY
                                   (delete STORED_EMAIL_KEY
                                      (delete BIOMETRIC_ENABLED_KEY
                                         (store w0)))));
                  log := (log w0 ++ evs)%list |}, Returned tt)) as Hrun.
  { intros w0.
    unfold disableBiometricLogin, setBiometricEnabled, clearStoredCredentials,
      SecureStore.deleteItemAsync, try_catch, bind, console_error, emit, ret,
      throw; simpl.
    rewrite !Hdel; simpl. rewrite <- !app_assoc. by eexists. }
  destruct (Hrun w) as (evs1 & H1).
  destruct (Hrun {| store := delete STORED_PASSWORD_KEY
                               (delete STORED_EMAIL_KEY
                                  (delete STORED_PASSWORD_KEY
                                     (delete STORED_EMAIL_KEY
                                        (delete BIOMETRIC_ENABLED_KEY
                                           (store w)))));
                    log := (log w ++ evs1)%list |}) as (evs2 & H2).
  do 2 eexists. split; [exact H1|]. split; [exact H2|]. simpl.
  destruct keys_distinct as (Hee & Hep & Hemp).
  repeat split.
  - apply map_eq. intros key. rewrite !lookup_delete.
    repeat case_decide; done.
  - rewrite !lookup_delete. repeat case_decide; done.
  - rewrite !lookup_delete. repeat case_decide; done.
  - rewrite !lookup_delete. repeat case_decide; done.
Qed.

Lemma disable_idempotent_witness :
  ∃ w1 w2,
    disableBiometricLogin (phone (Returned AuthSuccess)) enrolled
    = (w1, Returned tt)
    ∧ disableBiometricLogin (phone (Returned AuthSuccess)) w1
      = (w2, Returned tt)
    ∧ store w2 = store w1
    ∧ store w1 !! BIOMETRIC_ENABLED_KEY = None
    ∧ store w1 !! STORED_EMAIL_KEY = None
    ∧ store w1 !! STORED_PASSWORD_KEY = None.
Proof.
  exact (disable_idempotent (phone (Returned AuthSuccess)) enrolled
           (λ _, eq_refl)).
Defined.

(** ** The order of reading and prompting *)

(** Whenever the three preconditions hold, so that the prompt is reached,
    both credential entries are read out of the secure store before the
    first prompt, whether the prompt then succeeds or not. *)
Lemma prompt_follows_credential_reads d pm w :
  device_available d = true →
  enabled_flag d (store w) = true →
  is_Some (readable_credentials d (store w)) →
  ∃ w' r before opts after,
    authenticateWithBiometrics d pm w = (w', Returned r)
    ∧ log w' = (log w ++ before ++ EvAuthenticate opts :: after)%list
    ∧ EvGetItem STORED_EMAIL_KEY ∈ before
    ∧ EvGetItem STORED_PASSWORD_KEY ∈ before
    ∧ Forall (λ e, ¬ is_prompt e) before.
Proof.
  intros Hav Hen [creds Hcreds].
  destruct (authenticateWithBiometrics_run d pm w) as (evs & r & Hrun & Hcase).
  rewrite Hav, Hen, Hcreds in Hcase. simpl in Hcase.
  destruct Hcase as (name & pre & mid & post & _ & -> & Ppre & Pmid & _).
  exists (logged
            (pre ++ [EvGetItem STORED_EMAIL_KEY; EvGetItem STORED_PASSWORD_KEY]
             ++ mid ++ EvAuthenticate (prompt_options pm name) :: post) w), r,
    (pre ++ [EvGetItem STORED_EMAIL_KEY; EvGetItem STORED_PASSWORD_KEY]
     ++ mid)%list, (prompt_options pm name), post.
  split; [done|]. split; [simpl; by rewrite <- !app_assoc|].
  split; [set_solver|]. split; [set_solver|].
  rewrite !Forall_app. repeat split.
  - eapply Forall_impl; [exact Ppre|]. intros e He.
    by apply preference_event_harmless.
  - each_event.
  - eapply Forall_impl; [exact Pmid|]. intros e He.
    by apply probe_event_harmless.
Qed.

(** C5 does not hold of the code. On an enrolled phone whose prompt is
    cancelled by the user, [authenticateWithBiometrics] has read the stored
    email and password out of the secure store before it prompts, and the
    prompt then fails. *)
Theorem credentials_read_before_prompt :
  authenticateWithBiometrics (phone (Returned (AuthFailure "user_cancel")))
    None enrolled
  = ({| store := store enrolled;
        log := [ EvHasHardware; EvIsEnrolled;
                 EvGetItem BIOMETRIC_ENABLED_KEY;
                 EvGetItem STORED_EMAIL_KEY;
                 EvGetItem STORED_PASSWORD_KEY;
                 EvSupportedTypes;
                 EvAuthenticate
                   {| promptMessage := "Login to MediVault with Fingerprint";
                      cancelLabel := "Cancel";
                      disableDeviceFallback := false;
                      fallbackLabel := "Use Password" |} ] |},
     Returned (failure "Biometric authentication failed")).
Proof. reflexivity. Qed.

End BiometricFacts.

(** * Facts about the identity provider adapter *)

Module FirebaseAuthFacts.
Import FirebaseAuth.

(** ** Sign-up with a display name *)

(** What [signUp] does once the account exists and the profile update
    throws [err]. *)
Lemma signUp_update_fails fb data name user err w :
  SignUpData.displayName data = Some name →
  name ≠ "" →
  fb_createUser fb (SignUpData.email data) (SignUpData.password data)
  = Returned user →
  fb_updateProfile fb user name = Thrown err →
  signUp fb data w
  = ({| accounts := <[User.uid user := user]> (accounts w);
        log := log w ++ [EvCreateUser (SignUpData.email data)
                           (SignUpData.password data);
                         EvUpdateProfile (User.uid user) name] |},
     Thrown (new_Error (getAuthErrorMessage (code err)))).
Proof.
  intros Hname Hne Hcreate Hupdate.
  unfold signUp, createUserWithEmailAndPassword, updateProfile, try_catch,
    bind, answer, record_account, emit, ret, throw; simpl.
  rewrite Hcreate, Hname; simpl.
  unfold truthy. rewrite bool_decide_eq_true_2 by done. simpl.
  rewrite Hupdate; simpl. by rewrite <- app_assoc.
Qed.

(** C6, as the code has it. When a sign-up request carries a non-empty
    display name, the account creation succeeds and the display-name update
    that follows throws, [signUp] throws as well, with the message
    [getAuthErrorMessage] gives for the update's error code; the account
    that was created stays in the backend. *)
Theorem signUp_displayName_failure fb data name user err w :
  SignUpData.displayName data = Some name →
  name ≠ "" →
  fb_createUser fb (SignUpData.email data) (SignUpData.password data)
  = Returned user →
  fb_updateProfile fb user name = Thrown err →
  ∃ w',
    signUp fb data w
    = (w', Thrown (new_Error (getAuthErrorMessage (code err))))
    ∧ accounts w' !! User.uid user = Some user.
Proof.
  intros Hname Hne Hcreate Hupdate.
  rewrite (signUp_update_fails _ _ _ _ _ _ Hname Hne Hcreate Hupdate).
  eexists. split; [done|]. simpl. apply lookup_insert_eq.
Qed.

Lemma signUp_displayName_failure_witness :
  ∃ w',
    signUp flaky_backend alice_signs_up no_accounts
    = (w', Thrown (new_Error "Network error. Please check your connection."))
    ∧ accounts w' !! "uid-1" = Some alice.
Proof.
  exact (signUp_displayName_failure flaky_backend alice_signs_up "Alice" alice
           {| message := "Firebase: Error (auth/network-request-failed).";
              code := Some "auth/network-request-failed" |}
           no_accounts eq_refl ltac:(done) eq_refl eq_refl).
Defined.

(** C6 as stated fails: with the account created and the display-name
    update failing, [signUp] does not return a session. *)
Lemma signUp_displayName_failure_throws :
  ¬ (∀ fb data name user err w,
       SignUpData.displayName data = Some name →
       fb_createUser fb (SignUpData.email data) (SignUpData.password data)
       = Returned user →
       fb_updateProfile fb user name = Thrown err →
       ∃ w' session, signUp fb data w = (w', Returned session)).
Proof.
  intros Hclaim.
  destruct (Hclaim flaky_backend alice_signs_up "Alice" alice _ no_accounts
              eq_refl eq_refl eq_refl) as (w' & session & Hrun).
  vm_compute in Hrun. discriminate Hrun.
Qed.

(** ** Google sign-in without the provider module *)

(** C7. When [require] of the Google provider module throws at start-up,
    [isGoogleSignInAvailable] is [false] and [signInWithGoogle] throws
    "Google Sign-In is not available. Please use a development build
    instead of Expo Go." with the world as it was: no play-services check,
    no token request and no credential exchange is logged. *)
Theorem google_module_absent w0 fb w :
  ∃ w0' g,
    load_module None w0 = (w0', Returned g)
    ∧ isGoogleSignInAvailable g = false
    ∧ signInWithGoogle g fb w
      = (w, Thrown (new_Error
                      ("Google Sign-In is not available. "
                       ++ "Please use a development build instead of Expo Go."))).
Proof. by do 2 eexists. Qed.

End FirebaseAuthFacts.

(** * Further facts about the biometric service *)

Module BiometricMoreFacts.
Import Biometric BiometricViews BiometricFacts.

(** ** The capability probe *)

Lemma foldl_push_type acc types :
  foldl push_type acc types = (acc ++ omap biometric_type_of types)%list.
Proof.
  revert acc. induction types as [|type types IH]; intros acc; simpl.
  - by rewrite app_nil_r.
  - rewrite IH. destruct type; simpl; by rewrite <- ?app_assoc.
Qed.

Lemma elem_of_omap_biometric_type t (types : list AuthenticationType) :
  t ∈ omap biometric_type_of types ↔
  ∃ type, type ∈ types ∧ biometric_type_of type = Some t.
Proof. apply list_elem_of_omap. Qed.

(** X1. [getSupportedBiometricTypes] never throws and never changes the
    store.  Its list is never empty: it is the known types among those the
    platform reported, in the order reported, or [['none']] when there is
    none (unknown types only, an empty report, or a failed query); the
    sentinel never stands beside a real type. *)
Theorem supported_types_shape d w :
  ∃ w' types,
    getSupportedBiometricTypes d w = (w', Returned types)
    ∧ store w' = store w
    ∧ types ≠ []
    ∧ (none ∈ types → types = [none])
    ∧ (omap biometric_type_of (reported_types d) ≠ [] →
       types = omap biometric_type_of (reported_types d))
    ∧ (omap biometric_type_of (reported_types d) = [] → types = [none]).
Proof.
  unfold getSupportedBiometricTypes,
    LocalAuthentication.supportedAuthenticationTypesAsync, try_catch, bind,
    answer, console_error, emit, ret, reported_types; simpl.
  destruct (dev_supportedTypes d) as [types|err]; simpl.
  2: { do 2 eexists. by repeat split. }
  rewrite foldl_push_type; simpl.
  destruct (omap biometric_type_of types) as [|t ts] eqn:Hknown; simpl.
  { do 2 eexists. by repeat split. }
  do 2 eexists. split; [reflexivity|]. repeat split; try done.
  intros Hnone. exfalso.
  rewrite <- Hknown in Hnone.
  apply elem_of_omap_biometric_type in Hnone as (type & _ & Htype).
  by destruct type.
Qed.

Lemma getSupportedBiometricTypes_includes d w t :
  t ≠ none →
  ∃ evs types,
    getSupportedBiometricTypes d w = (logged evs w, Returned types)
    ∧ (t ∈ types ↔ ∃ type, type ∈ reported_types d
                            ∧ biometric_type_of type = Some t).
Proof.
  intros Ht.
  unfold getSupportedBiometricTypes,
    LocalAuthentication.supportedAuthenticationTypesAsync, try_catch, bind,
    answer, console_error, emit, ret, reported_types; simpl.
  destruct (dev_supportedTypes d) as [types|err]; simpl.
  2: { exists [EvSupportedTypes; EvConsoleError "Error getting biometric types:"].
       eexists. split; [unfold logged; simpl; by rewrite <- app_assoc|].
       split; [|by intros (? & ?%elem_of_nil & _)].
       intros ?%list_elem_of_singleton. done. }
  rewrite foldl_push_type; simpl.
  exists [EvSupportedTypes]. eexists. split; [done|].
  rewrite <- elem_of_omap_biometric_type.
  destruct (omap biometric_type_of types) as [|t0 ts]; simpl; [|done].
  split; [by intros ?%list_elem_of_singleton|by intros ?%elem_of_nil].
Qed.

Lemma reported_iff (t : BiometricType) (type : AuthenticationType) d :
  biometric_type_of type = Some t →
  (∀ type', biometric_type_of type' = Some t → type' = type) →
  (∃ type', type' ∈ reported_types d ∧ biometric_type_of type' = Some t)
  ↔ type ∈ reported_types d.
Proof.
  intros Htype Honly. split.
  - intros (type' & Hin & Heq). by rewrite <- (Honly _ Heq).
  - intros Hin. by exists type.
Qed.

(** The label is a function of what the platform reported. *)
Lemma getBiometricTypeName_label d w :
  ∃ evs, getBiometricTypeName d w = (logged evs w, Returned (label_of d))
         ∧ Forall is_probe_event evs.
Proof.
  destruct (getSupportedBiometricTypes_run d w) as (evs & types & Hrun & Pevs).
  exists evs. split; [|done].
  destruct (getSupportedBiometricTypes_includes d w facial ltac:(done))
    as (evs1 & types1 & Hrun1 & Hfacial).
  destruct (getSupportedBiometricTypes_includes d w fingerprint ltac:(done))
    as (evs2 & types2 & Hrun2 & Hfinger).
  destruct (getSupportedBiometricTypes_includes d w iris ltac:(done))
    as (evs3 & types3 & Hrun3 & Hiris).
  rewrite Hrun in Hrun1, Hrun2, Hrun3.
  injection Hrun1 as _ <-. injection Hrun2 as _ <-. injection Hrun3 as _ <-.
  rewrite (reported_iff facial FACIAL_RECOGNITION) in Hfacial
    by (try done; by intros []).
  rewrite (reported_iff fingerprint FINGERPRINT) in Hfinger
    by (try done; by intros []).
  rewrite (reported_iff iris IRIS) in Hiris by (try done; by intros []).
  unfold getBiometricTypeName, label_of, includes.
  rewrite (bind_logged _ _ _ _ _ Hrun). unfold ret.
  rewrite (bool_decide_ext _ _ Hfacial), (bool_decide_ext _ _ Hfinger),
    (bool_decide_ext _ _ Hiris).
  by repeat case_bool_decide.
Qed.

(** X2. [getBiometricTypeName] never throws and never changes the store;
    its label follows the precedence face, finger, iris over what the
    platform reported, whatever the order of the report: "Face ID" exactly
    when facial recognition is reported, "Fingerprint" exactly when a
    fingerprint is reported and no face, "Iris" exactly when an iris is
    reported and neither of the others, and "Biometric" exactly when none of
    the three is (which includes a failed query). *)
Theorem biometric_type_name_precedence d w :
  ∃ w' name,
    getBiometricTypeName d w = (w', Returned name)
    ∧ store w' = store w
    ∧ (name = "Face ID" ↔ FACIAL_RECOGNITION ∈ reported_types d)
    ∧ (name = "Fingerprint" ↔
       (FINGERPRINT ∈ reported_types d
        ∧ (FACIAL_RECOGNITION ∉ reported_types d)))
    ∧ (name = "Iris" ↔
       (IRIS ∈ reported_types d
        ∧ (FINGERPRINT ∉ reported_types d)
        ∧ (FACIAL_RECOGNITION ∉ reported_types d)))
    ∧ (name = "Biometric" ↔
       ((IRIS ∉ reported_types d)
        ∧ (FINGERPRINT ∉ reported_types d)
        ∧ (FACIAL_RECOGNITION ∉ reported_types d))).
Proof.
  destruct (getBiometricTypeName_label d w) as (evs & Hrun & _).
  exists (logged evs w), (label_of d). split; [done|]. split; [done|].
  unfold label_of. repeat case_bool_decide; intuition done.
Qed.

(** X3. [isBiometricAvailable] never throws and never changes the store.
    It asks the platform both questions on every call, and answers [true]
    exactly when both came back [true]: a query that throws counts as
    [false]. *)
Theorem available_iff_both_queries d w :
  ∃ w' b evs,
    isBiometricAvailable d w = (w', Returned b)
    ∧ store w' = store w
    ∧ log w' = (log w ++ evs)%list
    ∧ EvHasHardware ∈ evs ∧ EvIsEnrolled ∈ evs
    ∧ (b = true ↔ (dev_hasHardware d = Returned true
                   ∧ dev_isEnrolled d = Returned true)).
Proof.
  unfold isBiometricAvailable, hasHardwareAsync, isEnrolledAsync,
    LocalAuthentication.hasHardwareAsync, LocalAuthentication.isEnrolledAsync,
    try_catch, bind, answer, console_error, emit, ret; simpl.
  destruct (dev_hasHardware d) as [[|]|e1], (dev_isEnrolled d) as [[|]|e2];
    simpl; do 3 eexists;
    (split; [reflexivity|]); (split; [reflexivity|]); simpl;
    (split; [by rewrite <- !app_assoc|]);
    (split; [set_solver|]); (split; [set_solver|]);
    split; intros H; try done; destruct H; congruence.
Qed.

(** ** Reading never writes *)

Lemma precondition_event_not_write e :
  is_precondition_event e → ¬ is_write e ∧ ¬ is_prompt e.
Proof. destruct e; unfold is_precondition_event; simpl; tauto. Qed.

Lemma probe_event_not_write e : is_probe_event e → ¬ is_write e.
Proof. destruct e; simpl; tauto. Qed.

Lemma preference_event_not_write e :
  is_probe_event e ∨ is_preference_read e → ¬ is_write e.
Proof. destruct e; simpl; tauto. Qed.

(** X4. [authenticateWithBiometrics] is read-only on the secure store: for
    every device, message and store it leaves the store as it found it and
    issues no [setItemAsync] and no [deleteItemAsync]. *)
Theorem authenticate_never_writes d pm w :
  ∃ w' r evs,
    authenticateWithBiometrics d pm w = (w', Returned r)
    ∧ store w' = store w
    ∧ log w' = (log w ++ evs)%list
    ∧ Forall (λ e, ¬ is_write e) evs.
Proof.
  destruct (authenticateWithBiometrics_run d pm w) as (evs & r & Hrun & Hcase).
  exists (logged evs w), r, evs. repeat split; [done|].
  destruct (negb (device_available d)).
  { destruct Hcase as [_ P]. eapply Forall_impl; [exact P|].
    apply probe_event_not_write. }
  destruct (negb (enabled_flag d (store w))).
  { destruct Hcase as [_ P]. eapply Forall_impl; [exact P|].
    apply preference_event_not_write. }
  destruct (readable_credentials d (store w)) as [creds|].
  2: { destruct Hcase as [_ P]. eapply Forall_impl; [exact P|].
       intros e He. by apply precondition_event_not_write. }
  destruct Hcase as (name & pre & mid & post & _ & -> & Ppre & Pmid & Ppost).
  rewrite !Forall_app. repeat split.
  - eapply Forall_impl; [exact Ppre|]. apply preference_event_not_write.
  - each_event.
  - eapply Forall_impl; [exact Pmid|]. apply probe_event_not_write.
  - apply List.Forall_cons; [simpl; tauto|].
    eapply Forall_impl; [exact Ppost|]. apply probe_event_not_write.
Qed.

(** X5. [canUseBiometricLogin] is a pure read: it never throws, never shows
    the biometric prompt and never writes to the secure store. *)
Theorem canUseBiometricLogin_pure_read d w :
  ∃ w' b evs,
    canUseBiometricLogin d w = (w', Returned b)
    ∧ store w' = store w
    ∧ log w' = (log w ++ evs)%list
    ∧ Forall (λ e, ¬ is_write e ∧ ¬ is_prompt e) evs.
Proof.
  destruct (isBiometricAvailable_run d w) as (e1 & H1 & P1).
  destruct (isBiometricEnabled_run d (logged e1 w)) as (e2 & H2 & P2).
  destruct (hasStoredCredentials_run d (logged e2 (logged e1 w)))
    as (e3 & H3 & P3).
  exists (logged ((e1 ++ e2) ++ e3) w). eexists. exists ((e1 ++ e2) ++ e3)%list.
  split.
  { unfold canUseBiometricLogin.
    rewrite (bind_logged _ _ _ _ _ H1), (bind_logged _ _ _ _ _ H2),
      (bind_logged _ _ _ _ _ H3).
    by rewrite !logged_logged. }
  repeat split; [].
  rewrite !Forall_app. repeat split;
    (eapply Forall_impl; [eassumption|]); intros e He;
    apply precondition_event_not_write; unfold is_precondition_event; auto.
Qed.

(** ** What a successful authentication rests on *)

(** X6. A successful [authenticateWithBiometrics] carries exactly the pair
    the secure store holds: the device was available, the stored preference
    is the string "true", and the email and password of the result are the
    non-empty entries of the store. *)
Theorem authenticate_success_from_store d pm w w' r :
  authenticateWithBiometrics d pm w = (w', Returned r) →
  success r = true →
  ∃ e p,
    credentials r = Some {| email := e; password := p |}
    ∧ store w !! STORED_EMAIL_KEY = Some e
    ∧ store w !! STORED_PASSWORD_KEY = Some p
    ∧ e ≠ "" ∧ p ≠ ""
    ∧ store w !! BIOMETRIC_ENABLED_KEY = Some "true"
    ∧ returns (isBiometricAvailable d w) true.
Proof.
  intros Hrun Hsucc.
  destruct (authenticateWithBiometrics_run d pm w) as (evs & r' & Hrun' & Hcase).
  rewrite Hrun in Hrun'. injection Hrun' as _ <-.
  destruct (device_available d) eqn:Hav; simpl in Hcase.
  2: { destruct Hcase as [-> _]. done. }
  destruct (enabled_flag d (store w)) eqn:Hen; simpl in Hcase.
  2: { destruct Hcase as [-> _]. done. }
  destruct (readable_credentials d (store w)) as [creds|] eqn:Hcreds.
  2: { destruct Hcase as [-> _]. done. }
  destruct Hcase as (name & pre & mid & post & -> & _).
  destruct (dev_authenticate d (prompt_options pm name)) as [[|err]|err];
    [|done|done].
  simpl. unfold readable_credentials in Hcreds. unfold enabled_flag in Hen.
  repeat case_match; try done.
  unfold both_truthy, truthy in Hcreds.
  repeat case_match; try done. simplify_eq.
  repeat match goal with
         | H : bool_decide _ = true |- _ => apply bool_decide_eq_true in H
         | H : _ && _ = true |- _ => apply andb_true_iff in H as [??]
         end.
  do 2 eexists. repeat split; try done.
  by apply available_iff.
Qed.

Lemma authenticate_success_from_store_witness :
  ∃ e p,
    Some {| email := "a@b.com"; password := "secret1" |}
    = Some {| email := e; password := p |}
    ∧ store enrolled !! STORED_EMAIL_KEY = Some e
    ∧ store enrolled !! STORED_PASSWORD_KEY = Some p
    ∧ e ≠ "" ∧ p ≠ ""
    ∧ store enrolled !! BIOMETRIC_ENABLED_KEY = Some "true"
    ∧ returns (isBiometricAvailable (phone (Returned AuthSuccess)) enrolled)
        true.
Proof.
  exact (authenticate_success_from_store (phone (Returned AuthSuccess)) None
           enrolled _ _ eq_refl eq_refl).
Defined.

(** ** When the prompt is shown *)

(** X7. [authenticateWithBiometrics] shows the biometric prompt exactly
    when [canUseBiometricLogin] returns [true] on the same device and
    store, and then shows it once; when [canUseBiometricLogin] returns
    [false] no prompt is shown. *)
Theorem prompt_iff_can_use d pm w :
  ∃ w' r evs,
    authenticateWithBiometrics d pm w = (w', Returned r)
    ∧ log w' = (log w ++ evs)%list
    ∧ (returns (canUseBiometricLogin d w) true →
       ∃ before opts after,
         evs = (before ++ EvAuthenticate opts :: after)%list
         ∧ Forall (λ e, ¬ is_prompt e) before
         ∧ Forall (λ e, ¬ is_prompt e) after)
    ∧ (returns (canUseBiometricLogin d w) false →
       Forall (λ e, ¬ is_prompt e) evs).
Proof.
  destruct (authenticateWithBiometrics_run d pm w) as (evs & r & Hrun & Hcase).
  destruct (canUseBiometricLogin_run d w) as (evs' & Hcan).
  exists (logged evs w), r, evs. split; [done|]. split; [done|].
  unfold returns. rewrite Hcan. simpl.
  destruct (device_available d); simpl in *.
  2: { destruct Hcase as [_ P]. split; [done|]. intros _.
       eapply Forall_impl; [exact P|]. intros e He.
       by apply probe_event_harmless. }
  destruct (enabled_flag d (store w)); simpl in *.
  2: { destruct Hcase as [_ P]. split; [done|]. intros _.
       eapply Forall_impl; [exact P|]. intros e He.
       by apply preference_event_harmless. }
  destruct (readable_credentials d (store w)) as [creds|]; simpl in *.
  2: { destruct Hcase as [_ P]. split; [done|]. intros _.
       eapply Forall_impl; [exact P|]. intros e He.
       by apply precondition_event_not_write. }
  destruct Hcase as (name & pre & mid & post & _ & -> & Ppre & Pmid & Ppost).
  split; [|done]. intros _.
  exists (pre ++ [EvGetItem STORED_EMAIL_KEY; EvGetItem STORED_PASSWORD_KEY]
          ++ mid)%list, (prompt_options pm name), post.
  split; [by rewrite <- !app_assoc|]. rewrite !Forall_app. repeat split.
  - eapply Forall_impl; [exact Ppre|]. intros e He.
    by apply preference_event_harmless.
  - each_event.
  - eapply Forall_impl; [exact Pmid|]. intros e He.
    by apply probe_event_harmless.
  - eapply Forall_impl; [exact Ppost|]. intros e He.
    by apply probe_event_harmless.
Qed.

(** X8. When the prompt is shown, its message is the caller's message if
    that is a non-empty string and otherwise "Login to MediVault with "
    followed by the label of the device; the cancel label is "Cancel", the
    fallback label "Use Password", and the device fallback (PIN or pattern)
    is never disabled. *)
Theorem prompt_options_used d pm w :
  returns (canUseBiometricLogin d w) true →
  ∃ w' r before after,
    authenticateWithBiometrics d pm w = (w', Returned r)
    ∧ log w'
      = (log w ++ before
         ++ EvAuthenticate
              {| promptMessage :=
                   match pm with
                   | Some message =>
                       if bool_decide (message = "")
                       then "Login to MediVault with " ++ label_of d
                       else message
                   | None => "Login to MediVault with " ++ label_of d
                   end;
                 cancelLabel := "Cancel";
                 disableDeviceFallback := false;
                 fallbackLabel := "Use Password" |} :: after)%list.
Proof.
  intros Hcan.
  destruct (canUseBiometricLogin_run d w) as (evs' & Hcan').
  unfold returns in Hcan. rewrite Hcan' in Hcan. simpl in Hcan.
  injection Hcan as Hcan.
  apply andb_true_iff in Hcan as [Hcan Hcreds].
  apply andb_true_iff in Hcan as [Hav Hen].
  apply bool_decide_eq_true in Hcreds.
  destruct (readable_credentials d (store w)) as [creds|] eqn:Hcreds'; [|done].
  destruct (isBiometricAvailable_run d w) as (e1 & H1 & _).
  destruct (isBiometricEnabled_run d (logged e1 w)) as (e2 & H2 & _).
  pose proof (getStoredCredentials_reads d (logged e2 (logged e1 w)) creds
                Hcreds') as H3.
  set (reads := [EvGetItem STORED_EMAIL_KEY; EvGetItem STORED_PASSWORD_KEY])
    in *.
  destruct (getBiometricTypeName_label d
              (logged reads (logged e2 (logged e1 w)))) as (e4 & H4 & _).
  unfold authenticateWithBiometrics, try_catch.
  rewrite (bind_logged _ _ _ _ _ H1), Hav. simpl.
  rewrite (bind_logged _ _ _ _ _ H2). simpl. rewrite Hen. simpl.
  rewrite (bind_logged _ _ _ _ _ H3), (bind_logged _ _ _ _ _ H4).
  rewrite !logged_logged.
  unfold bind, LocalAuthentication.authenticateAsync, bind, emit, answer; simpl.
  assert (or_else pm ("Login to MediVault with " ++ label_of d)
          = match pm with
            | Some message =>
                if bool_decide (message = "")
                then "Login to MediVault with " ++ label_of d
                else message
            | None => "Login to MediVault with " ++ label_of d
            end) as ->.
  { unfold or_else, truthy. destruct pm as [m|]; [|done].
    by repeat case_bool_decide. }
  match goal with
  | |- context [dev_authenticate d ?o] =>
      destruct (dev_authenticate d o) as [[|err]|err]
  end; simpl.
  - do 2 eexists. exists (((e1 ++ e2) ++ reads) ++ e4)%list, [].
    split; [reflexivity|]. simpl. by rewrite <- !app_assoc.
  - do 2 eexists. exists (((e1 ++ e2) ++ reads) ++ e4)%list, [].
    split; [reflexivity|]. simpl. by rewrite <- !app_assoc.
  - do 2 eexists. exists (((e1 ++ e2) ++ reads) ++ e4)%list,
      [EvConsoleError "Biometric authentication error:"].
    unfold console_error, emit, ret; simpl.
    split; [reflexivity|]. simpl. by rewrite <- !app_assoc.
Qed.

Lemma prompt_options_used_witness :
  ∃ w' r before after,
    authenticateWithBiometrics (phone (Returned AuthSuccess)) (Some "")
      enrolled = (w', Returned r)
    ∧ log w'
      = (log enrolled ++ before
         ++ EvAuthenticate
              {| promptMessage := "Login to MediVault with Fingerprint";
                 cancelLabel := "Cancel";
                 disableDeviceFallback := false;
                 fallbackLabel := "Use Password" |} :: after)%list.
Proof.
  exact (prompt_options_used (phone (Returned AuthSuccess)) (Some "") enrolled
           eq_refl).
Defined.

(** ** Writing and reading back *)

Ltac store_ops :=
  unfold setupBiometricLogin, disableBiometricLogin, storeCredentials,
    setBiometricEnabled, clearStoredCredentials, getStoredCredentials,
    isBiometricEnabled, SecureStore.setItemAsync, SecureStore.deleteItemAsync,
    SecureStore.getItemAsync, try_catch, bind, console_error, emit, ret, throw;
  simpl.

(** X9. What [storeCredentials] wrote is what [getStoredCredentials] reads
    back, on a keystore whose reads work: the pair itself when the email and
    the password are both non-empty, and [null] as soon as one of them is
    the empty string. *)
Theorem store_then_get_credentials d d' e p w w1 :
  storeCredentials d e p w = (w1, Returned tt) →
  (∀ key, dev_storeFault d' (OpGet key) = None) →
  (e ≠ "" → p ≠ "" →
   returns (getStoredCredentials d' w1)
     (Some {| email := e; password := p |}))
  ∧ (e = "" ∨ p = "" → returns (getStoredCredentials d' w1) None).
Proof.
  intros Hstore Hget.
  assert (store w1 = <[STORED_PASSWORD_KEY := p]>
                       (<[STORED_EMAIL_KEY := e]> (store w))) as Hw1.
  { revert Hstore. store_ops.
    destruct (dev_storeFault d (OpSet STORED_EMAIL_KEY e)); simpl; [done|].
    destruct (dev_storeFault d (OpSet STORED_PASSWORD_KEY p)); simpl; [done|].
    by intros [= <-]. }
  destruct (getStoredCredentials_run d' w1) as (evs & Hrun & _).
  unfold returns. rewrite Hrun. simpl.
  unfold readable_credentials. rewrite !Hget, Hw1.
  rewrite lookup_insert_ne, !lookup_insert_eq by done.
  unfold both_truthy, truthy. split.
  - intros He Hp. by rewrite !bool_decide_eq_true_2.
  - intros [-> | ->]; [done|]. by rewrite andb_false_r.
Qed.

Lemma store_then_get_credentials_witness :
  ∃ w1,
    storeCredentials (phone (Returned AuthSuccess)) "a@b.com" "" fresh_install
    = (w1, Returned tt)
    ∧ ("a@b.com" ≠ "" → "" ≠ "" →
       returns (getStoredCredentials (phone (Returned AuthSuccess)) w1)
         (Some {| email := "a@b.com"; password := "" |}))
    ∧ ("a@b.com" = "" ∨ "" = "" →
       returns (getStoredCredentials (phone (Returned AuthSuccess)) w1) None).
Proof.
  eexists. split; [reflexivity|].
  exact (store_then_get_credentials (phone (Returned AuthSuccess))
           (phone (Returned AuthSuccess)) "a@b.com" "" fresh_install _
           eq_refl (λ _, eq_refl)).
Defined.

(** X10. The preference reads back as it was set: once
    [setBiometricEnabled b] has completed, [isBiometricEnabled] returns [b]
    on a keystore whose read of the preference works.  Enabling leaves the
    stored email and password as they were. *)
Theorem set_then_get_enabled d d' (b : bool) w w1 :
  setBiometricEnabled d b w = (w1, Returned tt) →
  dev_storeFault d' (OpGet BIOMETRIC_ENABLED_KEY) = None →
  returns (isBiometricEnabled d' w1) b
  ∧ (b = true →
     store w1 !! STORED_EMAIL_KEY = store w !! STORED_EMAIL_KEY
     ∧ store w1 !! STORED_PASSWORD_KEY = store w !! STORED_PASSWORD_KEY).
Proof.
  intros Hset Hget.
  destruct (isBiometricEnabled_run d' w1) as (evs & Hrun & _).
  unfold returns. rewrite Hrun. simpl. unfold enabled_flag. rewrite Hget.
  revert Hset. destruct b; store_ops.
  - destruct (dev_storeFault d (OpSet BIOMETRIC_ENABLED_KEY "true")); simpl;
      [done|].
    intros [= <-]. simpl. rewrite lookup_insert_eq.
    split; [done|]. intros _. by rewrite !lookup_insert_ne.
  - destruct (dev_storeFault d (OpDelete BIOMETRIC_ENABLED_KEY)); simpl;
      [done|].
    destruct (dev_storeFault d (OpDelete STORED_EMAIL_KEY)); simpl.
    { intros [= <-]. simpl. by rewrite lookup_delete_eq. }
    destruct (dev_storeFault d (OpDelete STORED_PASSWORD_KEY)); simpl;
      intros [= <-]; simpl; rewrite ?lookup_delete_ne by done;
      by rewrite lookup_delete_eq.
Qed.

Lemma set_then_get_enabled_witness :
  ∃ w1,
    setBiometricEnabled (phone (Returned AuthSuccess)) true fresh_install
    = (w1, Returned tt)
    ∧ returns (isBiometricEnabled (phone (Returned AuthSuccess)) w1) true
    ∧ (true = true →
       store w1 !! STORED_EMAIL_KEY = store fresh_install !! STORED_EMAIL_KEY
       ∧ store w1 !! STORED_PASSWORD_KEY
         = store fresh_install !! STORED_PASSWORD_KEY).
Proof.
  eexists. split; [reflexivity|].
  exact (set_then_get_enabled (phone (Returned AuthSuccess))
           (phone (Returned AuthSuccess)) true fresh_install _ eq_refl eq_refl).
Defined.

(** ** Enrolment that fails *)

(** X11. When [setupBiometricLogin] throws, the error is "Failed to setup
    biometric login" whatever the keystore threw, and the preference entry
    is as it was before the call: a failed enrolment never switches
    biometric login on. *)
Theorem setup_failure_keeps_preference d e p w w1 err :
  setupBiometricLogin d e p w = (w1, Thrown err) →
  err = new_Error "Failed to setup biometric login"
  ∧ store w1 !! BIOMETRIC_ENABLED_KEY = store w !! BIOMETRIC_ENABLED_KEY.
Proof.
  store_ops.
  destruct (dev_storeFault d (OpSet STORED_EMAIL_KEY e)); simpl.
  { by intros [= <- <-]. }
  destruct (dev_storeFault d (OpSet STORED_PASSWORD_KEY p)); simpl.
  { intros [= <- <-]. simpl. by rewrite lookup_insert_ne. }
  destruct (dev_storeFault d (OpSet BIOMETRIC_ENABLED_KEY "true")); simpl;
    [|done].
  intros [= <- <-]. simpl. by rewrite !lookup_insert_ne.
Qed.

Lemma setup_failure_keeps_preference_witness :
  ∃ w1,
    setupBiometricLogin half_writing_phone "a@b.com" "secret1" fresh_install
    = (w1, Thrown (new_Error "Failed to setup biometric login"))
    ∧ new_Error "Failed to setup biometric login"
      = new_Error "Failed to setup biometric login"
    ∧ store w1 !! BIOMETRIC_ENABLED_KEY
      = store fresh_install !! BIOMETRIC_ENABLED_KEY.
Proof.
  eexists. split; [reflexivity|].
  exact (setup_failure_keeps_preference half_writing_phone "a@b.com" "secret1"
           fresh_install _ _ eq_refl).
Defined.

(** X12. Enrolment is not atomic.  When the keystore takes the email and
    refuses the password, [setupBiometricLogin] throws with the new email
    already written; on a store that was enrolled before, the pair read
    back afterwards is the new email with the old password, and the
    preference still says enabled. *)
Theorem setup_failure_mixes_pair d d' e p p0 w :
  dev_storeFault d (OpSet STORED_EMAIL_KEY e) = None →
  dev_storeFault d (OpSet STORED_PASSWORD_KEY p) ≠ None →
  store w !! BIOMETRIC_ENABLED_KEY = Some "true" →
  store w !! STORED_PASSWORD_KEY = Some p0 →
  e ≠ "" → p0 ≠ "" →
  (∀ key, dev_storeFault d' (OpGet key) = None) →
  ∃ w1,
    setupBiometricLogin d e p w
    = (w1, Thrown (new_Error "Failed to setup biometric login"))
    ∧ store w1 = <[STORED_EMAIL_KEY := e]> (store w)
    ∧ returns (isBiometricEnabled d' w1) true
    ∧ returns (getStoredCredentials d' w1)
        (Some {| email := e; password := p0 |}).
Proof.
  intros Hemail Hpassword Hen Hp0 He Hp0ne Hget.
  destruct (dev_storeFault d (OpSet STORED_PASSWORD_KEY p)) as [x|] eqn:Hx;
    [clear Hpassword|done].
  eexists. split.
  { store_ops. rewrite Hemail; simpl. rewrite Hx; simpl. reflexivity. }
  simpl. split; [done|].
  match goal with |- returns (_ _ ?w1) _ ∧ _ => set (w1' := w1) end.
  destruct (isBiometricEnabled_run d' w1') as (evs1 & Hrun1 & _).
  destruct (getStoredCredentials_run d' w1') as (evs2 & Hrun2 & _).
  unfold returns. rewrite Hrun1, Hrun2. simpl.
  unfold enabled_flag, readable_credentials. rewrite !Hget.
  rewrite lookup_insert_eq, !lookup_insert_ne, Hen, Hp0 by done.
  unfold both_truthy, truthy. by rewrite !bool_decide_eq_true_2.
Qed.

Lemma setup_failure_mixes_pair_witness :
  ∃ w1,
    setupBiometricLogin half_writing_phone "c@d.org" "secret2" enrolled
    = (w1, Thrown (new_Error "Failed to setup biometric login"))
    ∧ store w1 = <[STORED_EMAIL_KEY := "c@d.org"]> (store enrolled)
    ∧ returns (isBiometricEnabled (phone (Returned AuthSuccess)) w1) true
    ∧ returns (getStoredCredentials (phone (Returned AuthSuccess)) w1)
        (Some {| email := "c@d.org"; password := "secret1" |}).
Proof.
  exact (setup_failure_mixes_pair half_writing_phone
           (phone (Returned AuthSuccess)) "c@d.org" "secret2" "secret1"
           enrolled eq_refl ltac:(done) eq_refl eq_refl ltac:(done) ltac:(done)
           (λ _, eq_refl)).
Defined.

(** ** Disabling and clearing *)

(** X13. [disableBiometricLogin] throws exactly when the deletion of the
    preference fails; it then throws "Failed to disable biometric login"
    and leaves the whole store as it was, credentials included.  When that
    deletion works it completes, whatever happens to the deletions of the
    credential entries, with the preference gone and every entry other
    than the three keys untouched. *)
Theorem disable_fails_only_on_preference d w :
  match dev_storeFault d (OpDelete BIOMETRIC_ENABLED_KEY) with
  | Some _ =>
      ∃ w', disableBiometricLogin d w
            = (w', Thrown (new_Error "Failed to disable biometric login"))
            ∧ store w' = store w
  | None =>
      ∃ w', disableBiometricLogin d w = (w', Returned tt)
            ∧ store w' !! BIOMETRIC_ENABLED_KEY = None
            ∧ ∀ key, key ≠ BIOMETRIC_ENABLED_KEY → key ≠ STORED_EMAIL_KEY →
                     key ≠ STORED_PASSWORD_KEY →
                     store w' !! key = store w !! key
  end.
Proof.
  store_ops.
  destruct (dev_storeFault d (OpDelete BIOMETRIC_ENABLED_KEY)); simpl.
  { by eexists. }
  destruct (dev_storeFault d (OpDelete STORED_EMAIL_KEY)); simpl.
  { eexists. split; [reflexivity|]. simpl. split.
    - apply lookup_delete_eq.
    - intros key H1 H2 H3. by rewrite lookup_delete_ne. }
  destruct (dev_storeFault d (OpDelete STORED_PASSWORD_KEY)); simpl;
    (eexists; split; [reflexivity|]; simpl; split;
     [ rewrite ?lookup_delete_ne by done; apply lookup_delete_eq
     | intros key H1 H2 H3; by rewrite ?lookup_delete_ne by done ]).
Qed.

(** X14. [clearStoredCredentials] never throws and touches no entry but
    the stored email and password.  It deletes the email first: when that
    deletion fails the error is swallowed and the password is left in the
    store, its deletion not even attempted; when both deletions work both
    entries are gone. *)
Theorem clear_credentials_best_effort d w :
  ∃ w' evs,
    clearStoredCredentials d w = (w', Returned tt)
    ∧ log w' = (log w ++ evs)%list
    ∧ (∀ key, key ≠ STORED_EMAIL_KEY → key ≠ STORED_PASSWORD_KEY →
              store w' !! key = store w !! key)
    ∧ (dev_storeFault d (OpDelete STORED_EMAIL_KEY) ≠ None →
       store w' = store w ∧ EvDeleteItem STORED_PASSWORD_KEY ∉ evs)
    ∧ (dev_storeFault d (OpDelete STORED_EMAIL_KEY) = None →
       store w' !! STORED_EMAIL_KEY = None)
    ∧ (dev_storeFault d (OpDelete STORED_EMAIL_KEY) = None →
       dev_storeFault d (OpDelete STORED_PASSWORD_KEY) = None →
       store w' !! STORED_PASSWORD_KEY = None).
Proof.
  store_ops.
  destruct (dev_storeFault d (OpDelete STORED_EMAIL_KEY)); simpl.
  { do 2 eexists. split; [reflexivity|]. simpl.
    split; [by rewrite <- app_assoc|]. repeat split; try done.
    intros Hin. simpl in Hin. rewrite !elem_of_cons, elem_of_nil in Hin.
    by destruct Hin as [[=]|[[=]|[]]]. }
  destruct (dev_storeFault d (OpDelete STORED_PASSWORD_KEY)); simpl;
    do 2 eexists; (split; [reflexivity|]); simpl;
    (split; [by rewrite <- ?app_assoc|]); repeat split; try done;
    intros; rewrite ?lookup_delete_ne by done;
    try apply lookup_delete_eq; done.
Qed.

End BiometricMoreFacts.

(** * Further facts about the identity provider adapter *)

Module FirebaseAuthMoreFacts.
Import FirebaseAuth.

Ltac auth_ops :=
  unfold signUp, signIn, signInWithGoogle, createUserWithEmailAndPassword,
    signInWithEmailAndPassword, updateProfile, signInWithCredential,
    try_catch, bind, answer, record_account, emit, ret, throw;
  simpl.

(** Splits [log w ++ a = log w ++ evs] and the membership that follows. *)
Ltac new_events H Hin :=
  simpl in H; rewrite <- ?app_assoc in H; apply app_inv_head in H; subst;
  simpl in Hin; rewrite ?elem_of_cons, ?elem_of_nil in Hin.

(** ** Sign-up *)

(** X15. A sign-up request whose display name is missing or the empty
    string only creates the account: [signUp] returns the user the backend
    created, and [updateProfile] is not called. *)
Theorem signUp_without_display_name fb data user w :
  SignUpData.displayName data = None ∨ SignUpData.displayName data = Some "" →
  fb_createUser fb (SignUpData.email data) (SignUpData.password data)
  = Returned user →
  signUp fb data w
  = ({| accounts := <[User.uid user := user]> (accounts w);
        log := log w ++ [EvCreateUser (SignUpData.email data)
                           (SignUpData.password data)] |},
     Returned (mapFirebaseUser user)).
Proof.
  intros Hname Hcreate. auth_ops. rewrite Hcreate; simpl.
  by destruct Hname as [-> | ->].
Qed.

Lemma signUp_without_display_name_witness :
  signUp flaky_backend
    {| SignUpData.email := "a@b.com"; SignUpData.password := "secret1";
       SignUpData.displayName := Some "" |} no_accounts
  = ({| accounts := <["uid-1" := alice]> ∅;
        log := [EvCreateUser "a@b.com" "secret1"] |},
     Returned (mapFirebaseUser alice)).
Proof.
  exact (signUp_without_display_name flaky_backend
           {| SignUpData.email := "a@b.com"; SignUpData.password := "secret1";
              SignUpData.displayName := Some "" |} alice no_accounts
           (or_intror eq_refl) eq_refl).
Defined.

(** X16. [signUp] calls [updateProfile] only for the account it has just
    created and only with the non-empty display name of the request: when
    the account creation fails, no profile update is attempted. *)
Theorem signUp_updates_only_created fb data w w' r evs uid name :
  signUp fb data w = (w', r) →
  log w' = (log w ++ evs)%list →
  EvUpdateProfile uid name ∈ evs →
  SignUpData.displayName data = Some name
  ∧ name ≠ ""
  ∧ ∃ user,
      fb_createUser fb (SignUpData.email data) (SignUpData.password data)
      = Returned user
      ∧ uid = User.uid user.
Proof.
  auth_ops.
  destruct (fb_createUser fb _ _) as [user|err]; simpl.
  2: { intros [= <- <-] Hlog Hin. new_events Hlog Hin.
       by destruct Hin as [[=]|[]]. }
  destruct (SignUpData.displayName data) as [name'|]; simpl.
  2: { intros [= <- <-] Hlog Hin. new_events Hlog Hin.
       by destruct Hin as [[=]|[]]. }
  unfold truthy. case_bool_decide as Hname; simpl.
  2: { intros [= <- <-] Hlog Hin. new_events Hlog Hin.
       by destruct Hin as [[=]|[]]. }
  destruct (fb_updateProfile fb user name'); simpl;
    intros [= <- <-] Hlog Hin; new_events Hlog Hin;
    destruct Hin as [[=]|[[= -> ->]|[]]]; eauto.
Qed.

Lemma signUp_updates_only_created_witness :
  SignUpData.displayName alice_signs_up = Some "Alice"
  ∧ "Alice" ≠ ""
  ∧ ∃ user,
      fb_createUser flaky_backend (SignUpData.email alice_signs_up)
        (SignUpData.password alice_signs_up) = Returned user
      ∧ "uid-1" = User.uid user.
Proof.
  exact (signUp_updates_only_created flaky_backend alice_signs_up no_accounts
           _ _ [EvCreateUser "a@b.com" "secret1";
                EvUpdateProfile "uid-1" "Alice"] "uid-1" "Alice"
           eq_refl eq_refl ltac:(set_solver)).
Defined.

(** ** Google sign-in *)

(** X17. [signInWithGoogle] hands a token to Firebase only after the
    play-services check has passed and the Google dialog has returned that
    token, and never an empty one. *)
Theorem google_exchange_needs_token g fb w w' r evs idToken :
  signInWithGoogle g fb w = (w', r) →
  log w' = (log w ++ evs)%list →
  EvSignInWithCredential idToken ∈ evs →
  idToken ≠ ""
  ∧ googleSignInAvailable g = true
  ∧ ∃ api,
      GoogleSignin g = Some api
      ∧ gs_hasPlayServices api = Returned tt
      ∧ gs_signIn api = Returned (Some idToken).
Proof.
  auth_ops.
  destruct (googleSignInAvailable g), (GoogleSignin g) as [api|]; simpl;
    try (intros [= <- <-] Hlog Hin; rewrite <- (app_nil_r (log w)) in Hlog at 1;
         new_events Hlog Hin; done).
  destruct (gs_hasPlayServices api) as [[]|err] eqn:Hplay; simpl.
  2: { repeat case_match; intros [= <- <-] Hlog Hin; new_events Hlog Hin;
       by destruct Hin as [[=]|[]]. }
  destruct (gs_signIn api) as [[token|]|err] eqn:Hdialog; simpl.
  2,3: repeat case_match; intros [= <- <-] Hlog Hin; new_events Hlog Hin;
       by destruct Hin as [[=]|[[=]|[]]].
  unfold truthy. case_bool_decide as Htoken; simpl.
  2: { repeat case_match; intros [= <- <-] Hlog Hin; new_events Hlog Hin;
       by destruct Hin as [[=]|[[=]|[]]]. }
  destruct (fb_signInWithCredential fb token); simpl;
    repeat case_match; intros [= <- <-] Hlog Hin; new_events Hlog Hin;
    destruct Hin as [[=]|[[=]|[[= ->]|[]]]];
    (split; [done|]); (split; [done|]); by exists api.
Qed.

Lemma google_exchange_needs_token_witness :
  "token-1" ≠ ""
  ∧ googleSignInAvailable
      (FirebaseSession.loaded (Returned (Some "token-1"))) = true
  ∧ ∃ api,
      GoogleSignin (FirebaseSession.loaded (Returned (Some "token-1")))
      = Some api
      ∧ gs_hasPlayServices api = Returned tt
      ∧ gs_signIn api = Returned (Some "token-1").
Proof.
  exact (google_exchange_needs_token
           (FirebaseSession.loaded (Returned (Some "token-1"))) flaky_backend
           no_accounts _ _
           [EvHasPlayServices; EvGoogleSignIn;
            EvSignInWithCredential "token-1"] "token-1"
           eq_refl eq_refl ltac:(set_solver)).
Defined.

(** X18. When the Google dialog completes without an ID token (none at
    all, or the empty string), [signInWithGoogle] throws "No ID token
    returned from Google Sign-In" and Firebase is not contacted. *)
Theorem google_missing_token g api fb w idToken :
  googleSignInAvailable g = true →
  GoogleSignin g = Some api →
  gs_hasPlayServices api = Returned tt →
  gs_signIn api = Returned idToken →
  idToken = None ∨ idToken = Some "" →
  signInWithGoogle g fb w
  = ({| accounts := accounts w;
        log := log w ++ [EvHasPlayServices; EvGoogleSignIn] |},
     Thrown (new_Error "No ID token returned from Google Sign-In")).
Proof.
  intros Hav Hapi Hplay Hdialog Htoken. auth_ops.
  rewrite Hav, Hapi; simpl. rewrite Hplay; simpl. rewrite Hdialog; simpl.
  unfold has_status.
  destruct Htoken as [-> | ->]; simpl; rewrite <- app_assoc;
    by destruct (statusCodes g).
Qed.

Lemma google_missing_token_witness :
  signInWithGoogle (FirebaseSession.loaded (Returned (Some ""))) flaky_backend
    no_accounts
  = ({| accounts := ∅; log := [EvHasPlayServices; EvGoogleSignIn] |},
     Thrown (new_Error "No ID token returned from Google Sign-In")).
Proof.
  exact (google_missing_token (FirebaseSession.loaded (Returned (Some "")))
           (FirebaseSession.google_api (Returned (Some ""))) flaky_backend
           no_accounts (Some "") eq_refl eq_refl eq_refl eq_refl
           (or_intror eq_refl)).
Defined.

(** Closes [code err = None ∧ message err ≠ ""] for an error built by the
    [catch] block. *)
Ltac thrown_message :=
  split; [done|]; simpl;
  try match goal with
      | H : truthy _ = true |- _ =>
          unfold truthy in H; apply bool_decide_eq_true in H
      end.

(** Every error [signInWithGoogle] throws has a non-empty message and no
    code. *)
Lemma google_error_shape g fb w w' err :
  signInWithGoogle g fb w = (w', Thrown err) →
  code err = None ∧ message err ≠ "".
Proof.
  auth_ops.
  destruct (googleSignInAvailable g), (GoogleSignin g) as [api|]; simpl;
    try (by intros [= <- <-]).
  destruct (gs_hasPlayServices api) as [[]|e1]; simpl.
  2: { repeat case_match; intros [= <- <-]; by thrown_message. }
  destruct (gs_signIn api) as [[token|]|e2]; simpl.
  2,3: repeat case_match; intros [= <- <-]; by thrown_message.
  destruct (truthy token); simpl.
  2: { repeat case_match; intros [= <- <-]; by thrown_message. }
  destruct (fb_signInWithCredential fb token) as [user|e3]; simpl; [done|].
  repeat case_match; intros [= <- <-]; by thrown_message.
Qed.

Lemma no_status g e X :
  (∀ codes, statusCodes g = Some codes →
            code e ≠ Some (SIGN_IN_CANCELLED codes)
            ∧ code e ≠ Some (IN_PROGRESS codes)
            ∧ code e ≠ Some (PLAY_SERVICES_NOT_AVAILABLE codes)) →
  X = SIGN_IN_CANCELLED ∨ X = IN_PROGRESS ∨ X = PLAY_SERVICES_NOT_AVAILABLE →
  has_status g e X = false.
Proof.
  intros Hcodes HX. unfold has_status.
  destruct (statusCodes g) as [codes|]; [|done].
  apply bool_decide_eq_false.
  destruct (Hcodes codes eq_refl) as (H1 & H2 & H3).
  by destruct HX as [-> | [-> | ->]].
Qed.

(** What [signInWithGoogle] throws when one of its three provider calls
    throws [e] and the code of [e] is none of the three status codes. *)
Lemma google_provider_failure g api fb w e :
  googleSignInAvailable g = true →
  GoogleSignin g = Some api →
  (gs_hasPlayServices api = Thrown e
   ∨ (gs_hasPlayServices api = Returned tt ∧ gs_signIn api = Thrown e)
   ∨ (∃ token,
        gs_hasPlayServices api = Returned tt
        ∧ gs_signIn api = Returned (Some token)
        ∧ token ≠ ""
        ∧ fb_signInWithCredential fb token = Thrown e)) →
  (∀ codes, statusCodes g = Some codes →
            code e ≠ Some (SIGN_IN_CANCELLED codes)
            ∧ code e ≠ Some (IN_PROGRESS codes)
            ∧ code e ≠ Some (PLAY_SERVICES_NOT_AVAILABLE codes)) →
  ∃ w',
    signInWithGoogle g fb w
    = (w', Thrown (new_Error (if bool_decide (message e = "")
                              then "Failed to sign in with Google"
                              else message e))).
Proof.
  intros Hav Hapi Hfail Hcodes.
  auth_ops. rewrite Hav, Hapi; simpl.
  destruct Hfail as [H1 | [[H1 H2] | (token & H1 & H2 & H3 & H4)]];
    rewrite H1; simpl; rewrite ?H2; simpl;
    try (unfold truthy; rewrite (bool_decide_eq_true_2 _ H3); simpl;
         rewrite H4; simpl);
    rewrite !(no_status g e) by auto; eexists; unfold or_else, truthy;
    by repeat case_bool_decide.
Qed.

(** X19. Every error [signInWithGoogle] throws is a fresh [Error] with a
    non-empty message and no code: the provider's error object never
    reaches the caller.  When the play-services check, the Google dialog or
    the credential exchange throws an error whose code is none of the three
    status codes, the error thrown carries that error's message, or "Failed
    to sign in with Google" when that message is empty. *)
Theorem google_errors_have_messages g fb w w' err :
  signInWithGoogle g fb w = (w', Thrown err) →
  code err = None ∧ message err ≠ ""
  ∧ ∀ api e,
      googleSignInAvailable g = true →
      GoogleSignin g = Some api →
      (gs_hasPlayServices api = Thrown e
       ∨ (gs_hasPlayServices api = Returned tt ∧ gs_signIn api = Thrown e)
       ∨ (∃ token,
            gs_hasPlayServices api = Returned tt
            ∧ gs_signIn api = Returned (Some token)
            ∧ token ≠ ""
            ∧ fb_signInWithCredential fb token = Thrown e)) →
      (∀ codes, statusCodes g = Some codes →
                code e ≠ Some (SIGN_IN_CANCELLED codes)
                ∧ code e ≠ Some (IN_PROGRESS codes)
                ∧ code e ≠ Some (PLAY_SERVICES_NOT_AVAILABLE codes)) →
      err = new_Error (if bool_decide (message e = "")
                       then "Failed to sign in with Google"
                       else message e).
Proof.
  intros Hrun.
  destruct (google_error_shape _ _ _ _ _ Hrun) as [Hcode Hmessage].
  split; [done|]. split; [done|].
  intros api e Hav Hapi Hfail Hcodes.
  destruct (google_provider_failure g api fb w e Hav Hapi Hfail Hcodes)
    as (w'' & Hrun').
  rewrite Hrun in Hrun'. by injection Hrun' as _ ->.
Qed.

(** The Google dialog throws an error with neither a code nor a message. *)
Lemma google_errors_have_messages_witness :
  ∃ w' err,
    signInWithGoogle
      (FirebaseSession.loaded (Thrown {| message := ""; code := None |}))
      flaky_backend no_accounts = (w', Thrown err)
    ∧ code err = None
    ∧ message err ≠ ""
    ∧ err = new_Error "Failed to sign in with Google".
Proof.
  do 2 eexists. split; [reflexivity|].
  destruct (google_errors_have_messages
              (FirebaseSession.loaded (Thrown {| message := ""; code := None |}))
              flaky_backend no_accounts _ _ eq_refl)
    as (Hcode & Hmessage & Hfallback).
  split; [exact Hcode|]. split; [exact Hmessage|].
  exact (Hfallback
           (FirebaseSession.google_api
              (Thrown {| message := ""; code := None |}))
           {| message := ""; code := None |} eq_refl eq_refl
           (or_intror (or_introl (conj eq_refl eq_refl)))
           ltac:(by intros codes _; repeat split)).
Defined.

(** X20. A failure of the Google dialog is told apart by its status code,
    not by its message: with the module's [statusCodes] loaded, an error
    whose code is [SIGN_IN_CANCELLED] becomes "Google Sign-In was
    cancelled", one whose code is [IN_PROGRESS] (and not the former)
    becomes "Google Sign-In is already in progress"; Firebase is not
    contacted in either case. *)
Theorem google_dialog_status g api codes fb w err :
  googleSignInAvailable g = true →
  GoogleSignin g = Some api →
  statusCodes g = Some codes →
  gs_hasPlayServices api = Returned tt →
  gs_signIn api = Thrown err →
  (code err = Some (SIGN_IN_CANCELLED codes) →
   signInWithGoogle g fb w
   = ({| accounts := accounts w;
         log := log w ++ [EvHasPlayServices; EvGoogleSignIn] |},
      Thrown (new_Error "Google Sign-In was cancelled")))
  ∧ (code err = Some (IN_PROGRESS codes) →
     IN_PROGRESS codes ≠ SIGN_IN_CANCELLED codes →
     signInWithGoogle g fb w
     = ({| accounts := accounts w;
           log := log w ++ [EvHasPlayServices; EvGoogleSignIn] |},
        Thrown (new_Error "Google Sign-In is already in progress"))).
Proof.
  intros Hav Hapi Hcodes Hplay Hdialog.
  split; [intros Hcode|intros Hcode Hne]; auth_ops;
    rewrite Hav, Hapi; simpl; rewrite Hplay; simpl; rewrite Hdialog; simpl;
    unfold has_status; rewrite Hcodes, Hcode; rewrite <- app_assoc; simpl.
  - by rewrite bool_decide_eq_true_2.
  - rewrite bool_decide_eq_false_2 by congruence.
    by rewrite bool_decide_eq_true_2.
Qed.

Lemma google_dialog_status_witness :
  (Some "SIGN_IN_CANCELLED" = Some "SIGN_IN_CANCELLED" →
   signInWithGoogle
     (FirebaseSession.loaded
        (Thrown {| message := "The user canceled the sign in request";
                   code := Some "SIGN_IN_CANCELLED" |}))
     flaky_backend no_accounts
   = ({| accounts := ∅; log := [EvHasPlayServices; EvGoogleSignIn] |},
      Thrown (new_Error "Google Sign-In was cancelled")))
  ∧ (Some "SIGN_IN_CANCELLED" = Some "IN_PROGRESS" →
     "IN_PROGRESS" ≠ "SIGN_IN_CANCELLED" →
     signInWithGoogle
       (FirebaseSession.loaded
          (Thrown {| message := "The user canceled the sign in request";
                     code := Some "SIGN_IN_CANCELLED" |}))
       flaky_backend no_accounts
     = ({| accounts := ∅; log := [EvHasPlayServices; EvGoogleSignIn] |},
        Thrown (new_Error "Google Sign-In is already in progress"))).
Proof.
  exact (google_dialog_status
           (FirebaseSession.loaded
              (Thrown {| message := "The user canceled the sign in request";
                         code := Some "SIGN_IN_CANCELLED" |}))
           (FirebaseSession.google_api
              (Thrown {| message := "The user canceled the sign in request";
                         code := Some "SIGN_IN_CANCELLED" |}))
           FirebaseSession.google_codes flaky_backend no_accounts
           {| message := "The user canceled the sign in request";
              code := Some "SIGN_IN_CANCELLED" |}
           eq_refl eq_refl eq_refl eq_refl eq_refl).
Defined.

(** ** Loading the Google module *)

(** X21. Once [require] has succeeded, [isGoogleSignInAvailable] is [true]
    whatever the module exports and whether or not [configure] throws: the
    flag is set before [configure] is called.  With a module that lacks the
    [GoogleSignin] export the flag is [true] all the same, and
    [signInWithGoogle] still refuses with the not-available error, calling
    nothing. *)
Theorem module_loaded_flag googleSignInModule w0 :
  ∃ w0' g,
    load_module (Some googleSignInModule) w0 = (w0', Returned g)
    ∧ isGoogleSignInAvailable g = true
    ∧ GoogleSignin g = module_GoogleSignin googleSignInModule
    ∧ statusCodes g = module_statusCodes googleSignInModule
    ∧ (module_GoogleSignin googleSignInModule = None →
       ∀ fb w, signInWithGoogle g fb w
               = (w, Thrown FirebaseSession.unavailable_error)).
Proof.
  unfold load_module, try_catch, bind, answer, emit, ret, throw; simpl.
  destruct (module_GoogleSignin googleSignInModule) as [api|] eqn:Hexport;
    simpl.
  - destruct (gs_configure api) as [[]|err]; simpl;
      do 2 eexists; (split; [reflexivity|]); by repeat split.
  - do 2 eexists. split; [reflexivity|]. by repeat split.
Qed.

End FirebaseAuthMoreFacts.

(** * Facts about the session operations *)

Module FirebaseSessionFacts.
Import FirebaseAuth FirebaseSession.
Import FirebaseAuthMoreFacts.

Ltac session_ops :=
  unfold signOut, resetPassword, updateUserProfile, isGoogleSignedIn,
    firebaseSignOut, sendPasswordResetEmail, updateProfile, set_currentUser,
    try_catch, bind, answer, emit, ret, throw;
  simpl.

Lemma getAuthErrorMessage_own errorCode text :
  own_text errorCode text → getAuthErrorMessage errorCode = text.
Proof.
  destruct errorCode as [c|]; simpl; [|by intros ->].
  unfold errorMessages. rewrite !elem_of_cons, elem_of_nil.
  intros H.
  repeat (destruct H as [[= -> ->]|H]; [reflexivity|]).
  done.
Qed.

(** X22. When the backend rejects with an [Error] whose code is one of the
    eleven codes of the table, the error that leaves [signUp] (from either
    of its two calls), [signIn], [resetPassword], [signOut] or
    [updateUserProfile] is a fresh [Error] without a code whose message is
    the text listed for that code; when the backend's error has no code,
    the message is the generic text. *)
Theorem auth_errors_normalized e text :
  own_text (code e) text →
  (∀ fb data w,
     fb_createUser fb (SignUpData.email data) (SignUpData.password data)
     = Thrown e →
     ∃ w', signUp fb data w = (w', Thrown (new_Error text)))
  ∧ (∀ fb data name user w,
       SignUpData.displayName data = Some name → name ≠ "" →
       fb_createUser fb (SignUpData.email data) (SignUpData.password data)
       = Returned user →
       FirebaseAuth.fb_updateProfile fb user name = Thrown e →
       ∃ w', signUp fb data w = (w', Thrown (new_Error text)))
  ∧ (∀ fb data w,
       fb_signIn fb (SignInData.email data) (SignInData.password data)
       = Thrown e →
       ∃ w', signIn fb data w = (w', Thrown (new_Error text)))
  ∧ (∀ fb email w,
       fb_sendPasswordResetEmail fb email = Thrown e →
       ∃ w', resetPassword fb email w = (w', Thrown (new_Error text)))
  ∧ (∀ g google fb w,
       fb_signOut fb = Thrown e →
       ∃ w', signOut g google fb w = (w', Thrown (new_Error text)))
  ∧ (∀ fb displayName photoURL user w,
       currentUser w = Some user →
       fb_updateProfile fb user
         (nullish_or displayName (User.displayName user))
         (nullish_or photoURL (User.photoURL user)) = Thrown e →
       ∃ w', updateUserProfile fb displayName photoURL w
             = (w', Thrown (new_Error text))).
Proof.
  intros Htext. apply getAuthErrorMessage_own in Htext. subst text.
  split; [|split; [|split; [|split; [|split]]]].
  - intros fb data w Hcreate. auth_ops. rewrite Hcreate; simpl.
    by eexists.
  - intros fb data name user w Hname Hne Hcreate Hupdate. auth_ops.
    rewrite Hcreate, Hname; simpl.
    unfold truthy. rewrite bool_decide_eq_true_2 by done. simpl.
    rewrite Hupdate; simpl. by eexists.
  - intros fb data w Hin. auth_ops. rewrite Hin; simpl.
    by eexists.
  - intros fb email w Hreset. session_ops. rewrite Hreset; simpl.
    by eexists.
  - intros g google fb w Hout. session_ops. rewrite Hout.
    destruct (google_usable g); simpl; [|by eexists].
    destruct (gs_isSignedIn google) as [[|]|e1]; simpl; [|by eexists..].
    destruct (gs_signOut google) as [[]|e2]; simpl; by eexists.
  - intros fb displayName photoURL user w Huser Hupdate. session_ops.
    rewrite Huser. session_ops. rewrite Hupdate; simpl.
    by eexists.
Qed.

(** The scenario of the wrong password. *)
Lemma auth_errors_normalized_witness :
  own_text (Some "auth/wrong-password") "Incorrect password. Please try again."
  ∧ ∃ w',
      signIn strict_backend
        {| SignInData.email := "a@b.com"; SignInData.password := "bad" |}
        no_accounts
      = (w', Thrown (new_Error "Incorrect password. Please try again.")).
Proof.
  assert (own_text (Some "auth/wrong-password")
            "Incorrect password. Please try again.") as Htext.
  { unfold own_text, errorMessages. do 6 apply list_elem_of_further.
    apply list_elem_of_here. }
  split; [exact Htext|].
  destruct (auth_errors_normalized
              {| message := "Firebase: Error (auth/wrong-password).";
                 code := Some "auth/wrong-password" |}
              "Incorrect password. Please try again." Htext)
    as (_ & _ & HsignIn & _).
  exact (HsignIn strict_backend
           {| SignInData.email := "a@b.com"; SignInData.password := "bad" |}
           no_accounts eq_refl).
Defined.

(** ** Signing out *)

(** X23. [signOut] always signs out of Firebase, as its last call and
    once, whatever the Google module does: errors of the Google sign-out
    are swallowed.  It completes exactly when the Firebase sign-out does,
    and otherwise throws the message for that error's code. *)
Theorem signOut_reaches_firebase g google fb w :
  ∃ w' googleEvents,
    signOut g google fb w
    = (w', match fb_signOut fb with
           | Returned _ => Returned tt
           | Thrown err => Thrown (new_Error (getAuthErrorMessage (code err)))
           end)
    ∧ log w' = (log w ++ googleEvents ++ [EvFirebaseSignOut])%list
    ∧ EvFirebaseSignOut ∉ googleEvents.
Proof.
  assert (∀ evs : list Event,
            Forall (λ e, e ≠ EvFirebaseSignOut) evs → EvFirebaseSignOut ∉ evs)
    as Hnot.
  { intros evs Hall Hin. by eapply Forall_forall in Hall. }
  session_ops.
  destruct (google_usable g); simpl.
  2: { destruct (fb_signOut fb) as [[]|err]; simpl; eexists; exists [];
       (split; [reflexivity|]); by split; [|apply Hnot]. }
  destruct (gs_isSignedIn google) as [[|]|e1]; simpl.
  - destruct (gs_signOut google) as [[]|e2]; simpl.
    + destruct (fb_signOut fb) as [[]|err]; simpl; eexists;
        exists [EvIsSignedIn; EvGoogleSignOut];
        (split; [reflexivity|]); simpl;
        (split; [by rewrite <- !app_assoc|apply Hnot; by repeat constructor]).
    + destruct (fb_signOut fb) as [[]|err]; simpl; eexists;
        exists [EvIsSignedIn; EvGoogleSignOut;
                EvConsoleWarn "Google sign-out error (non-critical):"];
        (split; [reflexivity|]); simpl;
        (split; [by rewrite <- !app_assoc|apply Hnot; by repeat constructor]).
  - destruct (fb_signOut fb) as [[]|err]; simpl; eexists;
      exists [EvIsSignedIn];
      (split; [reflexivity|]); simpl;
      (split; [by rewrite <- !app_assoc|apply Hnot; by repeat constructor]).
  - destruct (fb_signOut fb) as [[]|err]; simpl; eexists;
      exists [EvIsSignedIn;
              EvConsoleWarn "Google sign-out error (non-critical):"];
      (split; [reflexivity|]); simpl;
      (split; [by rewrite <- !app_assoc|apply Hnot; by repeat constructor]).
Qed.

(** Reads the new events off a run of [signOut] and decides which they
    are. *)
Ltac signOut_events :=
  let Hlog := fresh "Hlog" in
  intros [= <- <-] Hlog; simpl in Hlog; rewrite <- ?app_assoc in Hlog;
  apply app_inv_head in Hlog; subst; simpl; (split; [|done]);
  rewrite ?elem_of_cons, elem_of_nil; intuition congruence.

(** X24. [signOut] signs out of Google only when the guard passes (the
    module was loaded and exports [GoogleSignin]) and [isSignedIn] answered
    [true]; without the module it does not call Google at all. *)
Theorem signOut_google_only_when_signed_in g google fb w w' r evs :
  signOut g google fb w = (w', r) →
  log w' = (log w ++ evs)%list →
  (EvGoogleSignOut ∈ evs ↔
   (google_usable g = true ∧ gs_isSignedIn google = Returned true))
  ∧ (google_usable g = false → evs = [EvFirebaseSignOut]).
Proof.
  session_ops.
  destruct (google_usable g); simpl.
  2: { destruct (fb_signOut fb) as [[]|err]; simpl; by signOut_events. }
  destruct (gs_isSignedIn google) as [[|]|e1]; simpl.
  - destruct (gs_signOut google) as [[]|e2]; simpl;
      destruct (fb_signOut fb) as [[]|err]; simpl; by signOut_events.
  - destruct (fb_signOut fb) as [[]|err]; simpl; by signOut_events.
  - destruct (fb_signOut fb) as [[]|err]; simpl; by signOut_events.
Qed.

Lemma signOut_google_only_when_signed_in_witness :
  (EvGoogleSignOut ∈ [EvIsSignedIn; EvGoogleSignOut; EvFirebaseSignOut] ↔
   (google_usable (loaded (Returned None)) = true
    ∧ gs_isSignedIn {| gs_isSignedIn := Returned true;
                       gs_signOut := Returned tt |} = Returned true))
  ∧ (google_usable (loaded (Returned None)) = false →
     [EvIsSignedIn; EvGoogleSignOut; EvFirebaseSignOut] = [EvFirebaseSignOut]).
Proof.
  exact (signOut_google_only_when_signed_in (loaded (Returned None))
           {| gs_isSignedIn := Returned true; gs_signOut := Returned tt |}
           working_session signed_in _ _
           [EvIsSignedIn; EvGoogleSignOut; EvFirebaseSignOut]
           eq_refl eq_refl).
Defined.

(** X25. [isGoogleSignedIn] never throws.  It answers [true] exactly when
    the guard passes and [isSignedIn] answered [true]; when the guard fails
    it asks nothing, and an error of [isSignedIn] counts as [false]. *)
Theorem isGoogleSignedIn_safe g google w :
  ∃ w' b,
    isGoogleSignedIn g google w = (w', Returned b)
    ∧ currentUser w' = currentUser w
    ∧ (b = true ↔
       (google_usable g = true ∧ gs_isSignedIn google = Returned true))
    ∧ (google_usable g = false → w' = w).
Proof.
  session_ops.
  destruct (google_usable g); simpl.
  2: { do 2 eexists. split; [reflexivity|]. repeat split; try done.
       by intros [[=] _]. }
  destruct (gs_isSignedIn google) as [[|]|err]; simpl; do 2 eexists;
    (split; [reflexivity|]); repeat split; try done; by intros [_ [=]].
Qed.

(** ** Updating the profile *)

(** X26. With nobody signed in, [updateUserProfile] throws "No
    authenticated user" and calls nothing.  With a user signed in it calls
    [updateProfile] once, and an argument left out is sent as the user's
    current value, while an argument given is sent as it is, the empty
    string included. *)
Theorem updateUserProfile_fields fb displayName photoURL w :
  match currentUser w with
  | None =>
      updateUserProfile fb displayName photoURL w
      = (w, Thrown (new_Error "No authenticated user"))
  | Some user =>
      ∃ w' r,
        updateUserProfile fb displayName photoURL w = (w', r)
        ∧ log w'
          = (log w
             ++ [EvUpdateProfile (User.uid user)
                   (match displayName with
                    | Some name => Some name
                    | None => User.displayName user
                    end)
                   (match photoURL with
                    | Some url => Some url
                    | None => User.photoURL user
                    end)])%list
  end.
Proof.
  session_ops. destruct (currentUser w) as [user|]; [|done].
  session_ops. unfold nullish_or.
  destruct (fb_updateProfile fb user _ _) as [[]|err]; simpl; by do 2 eexists.
Qed.

End FirebaseSessionFacts.

(** * Facts about authentication under any rejection *)

Module BiometricRejectionFacts.
Import Biometric BiometricFacts.
Import BiometricRejections.

Ltac any_ops :=
  unfold BiometricRejections.authenticateWithBiometrics, authenticateAsync,
    try_catch_any, and_then, lift, resolve, reject, read_message,
    console_error, emit;
  simpl.

(** Closes a leaf of the case analysis: the run resolved with a result that
    carries what its [success] flag promises. *)
Ltac resolved_leaf :=
  do 2 eexists; split; [reflexivity|]; simpl; split;
  [ first [done | by eexists]
  | first [ done
          | intros _; eexists; split; [reflexivity|];
            first [ done
                  | apply promptErrorMessage_nonempty
                  | by apply (or_else_nonempty (Some _)) ] ] ].

(** C10, as the code has it. For every device, whatever its sensor and
    keystore answer or throw, every prompt message and every store: when
    the platform prompt does not reject with [null] or [undefined] (it may
    resolve either way or reject with an [Error]),
    [authenticateWithBiometrics] resolves with a result and does not
    reject; a result with [success = true] carries credentials and one with
    [success = false] carries a non-empty error message. *)
Theorem authenticate_total_unless_nullish d pm w :
  (∀ opts, prompt d opts ≠ Rejected RejectedNullish) →
  ∃ w' r,
    BiometricRejections.authenticateWithBiometrics d pm w = (w', Resolved r)
    ∧ (success r = true → is_Some (credentials r))
    ∧ (success r = false → ∃ msg, error r = Some msg ∧ msg ≠ "").
Proof.
  intros Hprompt. any_ops.
  destruct (isBiometricAvailable (base d) w) as [w1 [[|]|e1]]; simpl;
    [|resolved_leaf|resolved_leaf].
  destruct (isBiometricEnabled (base d) w1) as [w2 [[|]|e2]]; simpl;
    [|resolved_leaf|resolved_leaf].
  destruct (getStoredCredentials (base d) w2) as [w3 [[creds|]|e3]]; simpl;
    [|resolved_leaf|resolved_leaf].
  destruct (getBiometricTypeName (base d) w3) as [w4 [name|e4]]; simpl;
    [|resolved_leaf].
  match goal with
  | |- context [prompt d ?o] =>
      pose proof (Hprompt o) as Ho; destruct (prompt d o) as [[|err]|[e|]]
  end; simpl; [resolved_leaf|resolved_leaf|resolved_leaf|done].
Qed.

Lemma authenticate_total_unless_nullish_witness :
  ∃ w' r,
    BiometricRejections.authenticateWithBiometrics error_rejecting_phone None
      enrolled = (w', Resolved r)
    ∧ (success r = true → is_Some (credentials r))
    ∧ (success r = false → ∃ msg, error r = Some msg ∧ msg ≠ "").
Proof.
  exact (authenticate_total_unless_nullish error_rejecting_phone None enrolled
           ltac:(done)).
Defined.

(** C10 as stated fails where the prompt rejects with [null]: the [catch]
    block reads [error.message] of it, and the [TypeError] of that read
    leaves [authenticateWithBiometrics]. *)
Lemma authenticate_rejects_on_null :
  ¬ (∀ d pm w,
       ∃ w' r,
         BiometricRejections.authenticateWithBiometrics d pm w
         = (w', Resolved r)).
Proof.
  intros Hclaim.
  destruct (Hclaim null_rejecting_phone None enrolled) as (w' & r & Hrun).
  vm_compute in Hrun. discriminate Hrun.
Qed.

(** What happens there: every precondition passes, the prompt is shown,
    and the call rejects with the [TypeError]. *)
Example null_rejection_run :
  (BiometricRejections.authenticateWithBiometrics null_rejecting_phone None
     enrolled).2
  = Rejected (RejectedWith TypeError).
Proof. reflexivity. Qed.

(** On a prompt that settles as the [Error]-only device's prompt does, the
    two readings of [authenticateWithBiometrics] agree. *)
Lemma agrees_with_error_objects d pm w :
  (∀ opts, prompt d opts = settle (dev_authenticate (base d) opts)) →
  BiometricRejections.authenticateWithBiometrics d pm w
  = lift (Biometric.authenticateWithBiometrics (base d) pm) w.
Proof.
  intros Hprompt. any_ops.
  unfold Biometric.authenticateWithBiometrics,
    LocalAuthentication.authenticateAsync, try_catch, bind, answer, ret,
    console_error, emit; simpl.
  destruct (isBiometricAvailable (base d) w) as [w1 [[|]|e1]]; simpl;
    [|done|done].
  destruct (isBiometricEnabled (base d) w1) as [w2 [[|]|e2]]; simpl;
    [|done|done].
  destruct (getStoredCredentials (base d) w2) as [w3 [[creds|]|e3]]; simpl;
    [|done|done].
  destruct (getBiometricTypeName (base d) w3) as [w4 [name|e4]]; simpl;
    [|done].
  rewrite Hprompt.
  match goal with
  | |- context [dev_authenticate (base d) ?o] =>
      destruct (dev_authenticate (base d) o) as [[|err]|e]
  end; done.
Qed.

End BiometricRejectionFacts.
